(** * Kalamine XKB manager: a shallow embedding of [kalamine/xkb_manager.py]

    The first part follows the layout of the Python module:

    - Python [str] operations used by the module ([startswith], [endswith],
      [rstrip], [lower], [upper], slices, [split], line iteration);
    - insertion-ordered dictionaries ([Dict], the [Index] and [Variant] types);
    - helpers for [XKB/symbols] (marker recognition, the block scanner of
      [update_symbols_locale], [list_symbols]);
    - helpers for [XKB/rules] (the registry tree and its XPath queries,
      [update_rules], [list_rules]);
    - exception handling ([exit_FileNotWritable]);
    - the [XKBManager] methods ([add], [remove], [update], [clean], [list]).

    The second part states and proves what the specification claims about
    them: marker recognition and block scanning, error handling, the effect
    of [clean] and of an empty commit, upsert in the registry tree, listing
    and masks, and what a second commit of the same index does.

    Modelling conventions.

    - A Python [str] is the Rocq [string] of its UTF-8 bytes.  [lower],
      [upper] and [rstrip] act on the ASCII letters and spaces and carry the
      other bytes unchanged: they are Python's on ASCII text.  The statements
      that depend on them beyond ASCII say so, with [is_ascii], [plain_name]
      and [exact_text].
    - A symbols file is the text Python's text layer hands to the program.
      Reading turns a carriage return, alone or before a line feed, into a
      line feed: a text is read back as it was written when it has no
      carriage return ([no_cr]).
    - A rules file is represented by the registry tree that [etree.parse]
      builds from it; that a file is written is recorded in the [written]
      log of the disk.  lxml refuses the strings with control characters
      ([xml_compatible]): the queries and the construction of a node raise
      [ValueError] for them.  Names interpolated in XPath queries are taken
      free of the double quote and not empty.
    - The disk holds the symbols files by locale and the registry files by
      name: a locale stands for the file [symbols/<locale>], which is so for
      the locales that are file names ([file_name]).
    - An answer of [faults] stands for the exception raised when the file is
      opened, or by the reading or the writing that follows. *)

From Stdlib Require Import String Ascii List Bool Arith Lia.
Import ListNotations.
Open Scope list_scope.
Open Scope string_scope.

(* ------------------------------------------------------------------------- *)
(** ** Python [str] operations *)

Definition nl : string := String "010"%char EmptyString.

(** [s.startswith(p)] *)
Definition startswith (s p : string) : bool := prefix p s.

(** [s.endswith(suf)] *)
Fixpoint endswith (s suf : string) : bool :=
  (s =? suf) ||
  match s with
  | EmptyString => false
  | String _ s' => endswith s' suf
  end.

(** [s[a:-b]] for non-negative [a] and positive [b]. *)
Definition slice (a b : nat) (s : string) : string :=
  substring a (String.length s - b - a) s.

(** [s[:-n]] *)
Definition drop_last (n : nat) (s : string) : string :=
  substring 0 (String.length s - n) s.

(** [str.isspace] on ASCII: tab, line feed, vertical tab, form feed, carriage
    return, the four separators 28..31 and the space.  The spaces of Unicode
    beyond ASCII are not counted; see [trims_alike]. *)
Definition isspace (c : ascii) : bool :=
  let n := nat_of_ascii c in
  (((9 <=? n) && (n <=? 13)) || ((28 <=? n) && (n <=? 32)))%nat.

(** [s.rstrip()], for the ASCII spaces. *)
Fixpoint rstrip (s : string) : string :=
  match s with
  | EmptyString => EmptyString
  | String c s' =>
      match rstrip s' with
      | EmptyString => if isspace c then EmptyString else String c EmptyString
      | r => String c r
      end
  end.

Definition lower_char (c : ascii) : ascii :=
  let n := nat_of_ascii c in
  if ((65 <=? n) && (n <=? 90))%nat then ascii_of_nat (n + 32) else c.

Definition upper_char (c : ascii) : ascii :=
  let n := nat_of_ascii c in
  if ((97 <=? n) && (n <=? 122))%nat then ascii_of_nat (n - 32) else c.

Fixpoint map_string (f : ascii -> ascii) (s : string) : string :=
  match s with
  | EmptyString => EmptyString
  | String c s' => String (f c) (map_string f s')
  end.

(** [s.lower()] and [s.upper()], for the ASCII letters. *)
Definition lower : string -> string := map_string lower_char.
Definition upper : string -> string := map_string upper_char.

(** Iterating over a text file: the lines of [s], each with its terminating
    line feed, the last one possibly without. *)
Fixpoint readlines (s : string) : list string :=
  match s with
  | EmptyString => []
  | String c s' =>
      if Ascii.eqb c "010" then nl :: readlines s'
      else match readlines s' with
           | [] => [String c EmptyString]
           | l :: ls => String c l :: ls
           end
  end.

(** [c in s] for a character [c] *)
Fixpoint has_char (c : ascii) (s : string) : bool :=
  match s with
  | EmptyString => false
  | String x s' => Ascii.eqb x c || has_char c s'
  end.

(** [mask.split("/")] *)
Fixpoint split_slash (s : string) : list string :=
  match s with
  | EmptyString => [EmptyString]
  | String c s' =>
      if Ascii.eqb c "/" then EmptyString :: split_slash s'
      else match split_slash s' with
           | [] => [String c EmptyString]
           | w :: ws => String c w :: ws
           end
  end.

(** [''.join(ls)] *)
Definition join (ls : list string) : string := String.concat EmptyString ls.

(* ------------------------------------------------------------------------- *)
(** ** Insertion-ordered dictionaries *)

Section Dict.
Context {V : Type}.

Definition Dict := list (string * V).

Definition keys (d : Dict) : list string := map fst d.

(** [d.get(k)] *)
Fixpoint dict_get (d : Dict) (k : string) : option V :=
  match d with
  | [] => None
  | (k', v) :: d' => if k' =? k then Some v else dict_get d' k
  end.

(** [k in d] *)
Definition has_key (d : Dict) (k : string) : bool :=
  existsb (String.eqb k) (keys d).

(** [d[k] = v]: an existing key keeps its position, a new key goes last. *)
Fixpoint dict_set (d : Dict) (k : string) (v : V) : Dict :=
  match d with
  | [] => [(k, v)]
  | (k', v') :: d' =>
      if k' =? k then (k, v) :: d' else (k', v') :: dict_set d' k v
  end.
End Dict.
Arguments Dict : clear implicits.

(** The idiom of the module for dictionaries of dictionaries:
    [if k1 not in index: index[k1] = {}] followed by [index[k1][k2] = x]. *)
Definition nested_set {X} (index : Dict (Dict X)) (k1 k2 : string) (x : X)
  : Dict (Dict X) :=
  let index' :=
    if has_key index k1 then index else dict_set index k1 [] in
  match dict_get index' k1 with
  | Some inner => dict_set index' k1 (dict_set inner k2 x)
  | None => index'
  end.

(** [k1 in index and k2 in index[k1]] *)
Definition in_nested {X} (index : Dict (Dict X)) (k1 k2 : string) : bool :=
  match dict_get index k1 with
  | Some inner => has_key inner k2
  | None => false
  end.

(* ------------------------------------------------------------------------- *)
(** ** The index *)

(** Modelled from the spec: the class [KeyboardLayout] of [kalamine/layout.py],
    which the manager imports.  A definition carries a description and a body
    (the spec's data model); the manager reads them as
    [layout.meta["locale"]], [layout.meta["variant"]],
    [layout.meta["description"]] and [layout.xkb_symbols]. *)
Record KeyboardLayout := {
  meta_locale : string;
  meta_variant : string;
  meta_description : string;
  xkb_symbols : string
}.

Definition LayoutName := string.
Definition LocaleName := string.
Definition Variant := Dict (option KeyboardLayout).
Definition Index := Dict Variant.

(* ------------------------------------------------------------------------- *)
(** ** Helpers: XKB/symbols *)


Record symbol_mark := { mark_begin : string; mark_end : string }.

Definition get_symbol_mark (name : string) : symbol_mark :=
  {| mark_begin := "// KALAMINE::" ++ upper name ++ "::BEGIN" ++ nl;
     mark_end := "// KALAMINE::" ++ upper name ++ "::END" ++ nl |}.

Definition is_new_symbol_mark (line : string) : option string :=
  if negb (endswith line ("::BEGIN" ++ nl)) then None
  else if startswith line "// KALAMINE::" then Some (lower (slice 13 8 line))
  else Some "lafayette".

(** Truth value of an [Optional[str]]: [None] and the empty string are false. *)
Definition truthy (name : option string) : option string :=
  match name with
  | Some EmptyString => None
  | other => other
  end.

(** The loop variables of the scanning pass of [update_symbols_locale]. *)
Record scan_state := {
  text : string;
  modified_text : bool;
  between_marks : bool;
  closing_mark : string
}.

Definition scan_init : scan_state :=
  {| text := EmptyString; modified_text := false;
     between_marks := false; closing_mark := EmptyString |}.

Definition add_text (st : scan_state) (line : string) : scan_state :=
  {| text := text st ++ line; modified_text := modified_text st;
     between_marks := between_marks st; closing_mark := closing_mark st |}.

(** One iteration of [for line in symbols]. *)
Definition scan_line (named_layouts : Variant) (st : scan_state) (line : string)
  : scan_state :=
  match truthy (is_new_symbol_mark line) with
  | Some name =>
      if has_key named_layouts name then
        {| text := rstrip (text st); modified_text := true;
           between_marks := true;
           closing_mark := drop_last 6 line ++ "END" ++ nl |}
      else add_text st line
  | None =>
      if endswith line ("::END" ++ nl) then
        if between_marks st && startswith line (closing_mark st) then
          {| text := text st; modified_text := modified_text st;
             between_marks := false; closing_mark := EmptyString |}
        else add_text st line
      else if negb (between_marks st) then add_text st line
      else st
  end.

Definition scan (named_layouts : Variant) (st : scan_state)
  (lines : list string) : scan_state :=
  fold_left (scan_line named_layouts) lines st.

(** [re.sub(r"^//#.*\n", "", s, flags=re.MULTILINE)]: the lines that start
    with [//#] and end with a line feed are removed. *)
Definition drop_sentinel_lines (s : string) : string :=
  join (filter (fun l => negb (startswith l "//#" && endswith l nl))
               (readlines s)).

(** The body written between the two marks. *)
Definition body_text (layout : KeyboardLayout) : string :=
  rstrip (drop_sentinel_lines (xkb_symbols layout)) ++ nl.

(** What the second loop writes for one entry of [named_layouts]. *)
Definition new_block (name : string) (layout : option KeyboardLayout) : string :=
  match layout with
  | None => EmptyString
  | Some l =>
      nl ++ mark_begin (get_symbol_mark name)
         ++ body_text l
         ++ mark_end (get_symbol_mark name)
  end.

Definition new_blocks (named_layouts : Variant) : string :=
  join (map (fun e => new_block (fst e) (snd e)) named_layouts).

(** [update_symbols_locale] as a function from the contents of the file to its
    new contents: the file is overwritten from the start when a block was
    dropped, otherwise the write position is the end of the file. *)
Definition update_symbols_locale (content : string) (named_layouts : Variant)
  : string :=
  let st := scan named_layouts scan_init (readlines content) in
  (if modified_text st then rstrip (text st) ++ nl else content)
  ++ new_blocks named_layouts.

(* ------------------------------------------------------------------------- *)
(** ** Exceptions, the disk and the commands that touch it *)

(** The exception classes [exit_FileNotWritable] tells apart.
    [PermissionError] is a subclass of [OSError], which [IOError] names. *)
Inductive exc_class := PermissionError | OtherOSError | OtherException.

Record exception := {
  exc_kind : exc_class;
  exc_str : string;          (* str(exception) *)
  exc_traceback : string     (* traceback.format_exc() *)
}.

Definition isinstance_PermissionError (e : exception) : bool :=
  match exc_kind e with PermissionError => true | _ => false end.

Definition isinstance_IOError (e : exception) : bool :=
  match exc_kind e with
  | PermissionError | OtherOSError => true
  | OtherException => false
  end.

(** What opening a missing file raises, a subclass of [OSError].  The
    traceback of the exceptions the model raises itself, which depends on the
    interpreter, is left empty. *)
Definition FileNotFoundError : exception :=
  {| exc_kind := OtherOSError; exc_str := "No such file or directory";
     exc_traceback := EmptyString |}.

(** What indexing an empty list raises. *)
Definition IndexError : exception :=
  {| exc_kind := OtherException; exc_str := "list index out of range";
     exc_traceback := EmptyString |}.

(** What lxml raises for a string it does not take. *)
Definition ValueError : exception :=
  {| exc_kind := OtherException;
     exc_str := "All strings must be XML compatible: Unicode or ASCII, "
                ++ "no NULL bytes or control characters";
     exc_traceback := EmptyString |}.

(** How a command ends: normally, with an exception that propagates, or with
    [sys.exit(msg)]. *)
Inductive outcome (A : Type) :=
| Return (a : A)
| Raise (e : exception)
| SystemExit (msg : string).
Arguments Return {A} a.
Arguments Raise {A} e.
Arguments SystemExit {A} msg.

(** Sequencing of computations that can raise or exit. *)
Definition and_then {A B} (o : outcome A) (k : A -> outcome B) : outcome B :=
  match o with
  | Return a => k a
  | Raise e => Raise e
  | SystemExit msg => SystemExit msg
  end.

(** The registry tree of [rules/base.xml] and [rules/evdev.xml]:
    [layoutList > layout > (configItem/name, variantList > variant >
    configItem > (name, description))]. *)
Record VariantNode := {
  variant_type : option string;     (* the obsolete [type] attribute *)
  variant_name : string;
  variant_description : string
}.

Record LayoutNode := {
  layout_name : string;
  variantLists : list (list VariantNode)
}.

Definition Tree := list LayoutNode.

Inductive access := Read | Write | Update.   (* modes "r", "w", "r+" *)

(** For each way of opening a path, the exception the operating system
    answers with, if any: when the file is opened, or in the reading or the
    writing that follows. *)
Definition faults := access -> string -> option exception.

(** What the helpers are given: the root directory ([xkb_root]) and the
    answers of the operating system. *)
Record env := {
  rootdir : string;
  fault : faults
}.

(** The files are kept by name: a locale is taken as the name of a file
    right under [symbols/] (see [file_name]), and the text of a symbols file
    as free of carriage returns (see [no_cr]). *)
Record disk := {
  rules_files : Dict Tree;        (* by file name under [rules/] *)
  symbols_files : Dict string;    (* by locale under [symbols/] *)
  written : list string           (* paths written so far, oldest first *)
}.

Definition rules_path (e : env) (filename : string) : string :=
  rootdir e ++ "/rules/" ++ filename.

Definition symbols_path (e : env) (locale : string) : string :=
  rootdir e ++ "/symbols/" ++ locale.

Definition M (A : Type) : Type := disk -> outcome A * disk.

Definition ret {A} (a : A) : M A := fun d => (Return a, d).

Definition bind {A B} (m : M A) (k : A -> M B) : M B :=
  fun d =>
    match m d with
    | (Return a, d') => k a d'
    | (Raise e, d') => (Raise e, d')
    | (SystemExit msg, d') => (SystemExit msg, d')
    end.

Notation "x <- m ;; k" := (bind m (fun x => k))
  (at level 61, m at next level, right associativity).
Notation "m ;;; k" := (bind m (fun _ => k))
  (at level 61, right associativity).

Definition raise {A} (ex : exception) : M A := fun d => (Raise ex, d).
Definition sys_exit {A} (msg : string) : M A := fun d => (SystemExit msg, d).

(** [try: m except Exception as exc: h(exc)]; [SystemExit] is not an
    [Exception] and passes through. *)
Definition try_except {A} (m : M A) (h : exception -> M A) : M A :=
  fun d =>
    match m d with
    | (Raise ex, d') => h ex d'
    | other => other
    end.

Fixpoint for_each {X} (xs : list X) (body : X -> M unit) : M unit :=
  match xs with
  | [] => ret tt
  | x :: xs' => body x ;;; for_each xs' body
  end.

(** Opening [path] in mode [a]. *)
Definition open_path (e : env) (a : access) (path : string) : M unit :=
  match fault e a path with
  | Some ex => raise ex
  | None => ret tt
  end.

Definition log_write (path : string) : M unit :=
  fun d => (Return tt,
            {| rules_files := rules_files d; symbols_files := symbols_files d;
               written := (written d ++ [path])%list |}).

Definition set_rules (filename : string) (t : Tree) : M unit :=
  fun d => (Return tt,
            {| rules_files := dict_set (rules_files d) filename t;
               symbols_files := symbols_files d; written := written d |}).

Definition set_symbols (locale : string) (content : string) : M unit :=
  fun d => (Return tt,
            {| rules_files := rules_files d;
               symbols_files := dict_set (symbols_files d) locale content;
               written := written d |}).

Definition get_rules (filename : string) : M (option Tree) :=
  fun d => (Return (dict_get (rules_files d) filename), d).

Definition get_symbols (locale : string) : M (option string) :=
  fun d => (Return (dict_get (symbols_files d) locale), d).

(* ------------------------------------------------------------------------- *)
(** ** Exception handling *)

Definition exit_FileNotWritable {A} (exception : exception) (path : string)
  : M A :=
  if isinstance_PermissionError exception then raise exception
  else if isinstance_IOError exception then
    sys_exit ("Error: could not write to file " ++ path ++ ".")
  else
    sys_exit ("Error: " ++ exc_str exception ++ "." ++ nl
              ++ exc_traceback exception).

(* ------------------------------------------------------------------------- *)
(** ** Helpers: XKB/symbols, on disk *)

Definition has_definition (named_layouts : Variant) : bool :=
  existsb (fun e => match snd e with Some _ => true | None => false end)
          named_layouts.

(** [update_symbols_locale] on the disk: the file is opened for update, and
    written when a block was dropped or a block is appended. *)
Definition update_symbols_locale_io (e : env) (locale : string)
  (named_layouts : Variant) : M unit :=
  let path := symbols_path e locale in
  open_path e Update path ;;;
  content <- get_symbols locale ;;
  match content with
  | None => raise FileNotFoundError
  | Some c =>
      let st := scan named_layouts scan_init (readlines c) in
      if modified_text st || has_definition named_layouts then
        set_symbols locale (update_symbols_locale c named_layouts) ;;;
        log_write path
      else ret tt
  end.

(** The body of the loop of [update_symbols] for one locale: the file is
    created when missing, then updated under the guard of the handler. *)
Definition update_symbols_entry (e : env) (entry : string * Variant) : M unit :=
  let locale := fst entry in
  let named_layouts := snd entry in
  let path := symbols_path e locale in
  content <- get_symbols locale ;;
  (match content with
   | None =>
       open_path e Write path ;;;
       set_symbols locale "// Generated by Kalamine" ;;;
       log_write path
   | Some _ => ret tt
   end) ;;;
  try_except (update_symbols_locale_io e locale named_layouts)
             (fun exc => exit_FileNotWritable exc path).

(** Update Kalamine layouts in all xkb/symbols files. *)
Definition update_symbols (e : env) (kb_index : Index) : M unit :=
  for_each kb_index (update_symbols_entry e).

Definition Listing := Dict (Dict string).

(** [sorted(kb_index.items())]: the keys are distinct, so the order is that of
    the locale names. *)
Fixpoint insert_sorted {V} (x : string * V) (l : list (string * V))
  : list (string * V) :=
  match l with
  | [] => [x]
  | y :: l' =>
      if String.leb (fst x) (fst y) then x :: l else y :: insert_sorted x l'
  end.

Definition sorted {V} (l : list (string * V)) : list (string * V) :=
  fold_right insert_sorted [] l.

(** The body of [for line in symbols] in [list_symbols]. *)
Definition list_symbols_line (locale : string) (variants : Dict string)
  (filtered_index : Listing) (line : string) : Listing :=
  match is_new_symbol_mark line with
  | None => filtered_index
  | Some name =>
      match dict_get variants name with
      | Some desc => nested_set filtered_index locale name desc
      | None => filtered_index
      end
  end.

(** Filter input layouts: only keep the ones defined with Kalamine. *)
Definition list_symbols (d : disk) (kb_index : Listing) : Listing :=
  fold_left
    (fun filtered_index entry =>
       match dict_get (symbols_files d) (fst entry) with
       | None => filtered_index
       | Some content =>
           fold_left (list_symbols_line (fst entry) (snd entry))
                     (readlines content) filtered_index
       end)
    (sorted kb_index) [].

(* ------------------------------------------------------------------------- *)
(** ** Helpers: XKB/rules *)

(** [//layout/configItem/name[text()="{locale}"]/../..]: the positions of the
    layouts with that name, in document order.  The query is built by
    interpolating the name between double quotes; names are taken free of the
    double quote, for which the literal denotes the name itself, and not
    empty, an element without text having no text node to compare with. *)
Fixpoint xpath_layouts (tree : Tree) (locale : string) (pos : nat) : list nat :=
  match tree with
  | [] => []
  | l :: tree' =>
      if layout_name l =? locale then pos :: xpath_layouts tree' locale (S pos)
      else xpath_layouts tree' locale (S pos)
  end.

Definition xpath_safe (name : string) : bool := negb (has_char "034" name).

(** [E.layout(E.configItem(E.name(locale)), E.variantList())] *)
Definition new_layout (locale : string) : LayoutNode :=
  {| layout_name := locale; variantLists := [[]] |}.

(** The strings lxml takes, in a query and as the text of an element: no NUL
    byte and no control character other than tab, line feed and carriage
    return, and, in the UTF-8 bytes of the string, neither U+FFFE, U+FFFF nor
    a surrogate. *)
Definition xml_compatible_char (c : ascii) : bool :=
  let n := nat_of_ascii c in
  ((32 <=? n) || (n =? 9) || (n =? 10) || (n =? 13))%nat.

(** The three bytes the string starts with encode U+FFFE or U+FFFF, or lie
    between the encodings of U+D800 and U+DFFF. *)
Definition forbidden_utf8 (s : string) : bool :=
  match s with
  | String a (String b (String c _)) =>
      let x := nat_of_ascii a in
      let y := nat_of_ascii b in
      let z := nat_of_ascii c in
      ((x =? 239) && (y =? 191) && ((z =? 190) || (z =? 191))
       || (x =? 237)
          && ((160 <? y) || (y =? 160) && (128 <=? z))
          && ((y <? 191) || (y =? 191) && (z <=? 191)))%nat
  | _ => false
  end.

Fixpoint xml_compatible (s : string) : bool :=
  match s with
  | EmptyString => true
  | String c s' =>
      xml_compatible_char c && negb (forbidden_utf8 s) && xml_compatible s'
  end.

(** The tree after the call and the position of the layout it returns.  The
    query raises for a name lxml does not take. *)
Definition get_rules_locale (tree : Tree) (locale : string)
  : outcome (Tree * nat) :=
  if negb (xml_compatible locale) then Raise ValueError
  else
    let result := xpath_layouts tree locale 0 in
    let tree' :=
      if (List.length result =? 1)%nat then tree
      else (tree ++ [new_layout locale])%list in
    match xpath_layouts tree' locale 0 with
    | i :: _ => Return (tree', i)
    | [] => Raise IndexError
    end.

(** [variant/configItem/name[text()="{name}"]/../..] selects the variants with
    that name; each is removed from its parent.  The query raises for a name
    lxml does not take.  The empty name selects nothing: the keys of a
    dictionary being distinct, the nodes the list holds without a name come
    from the parser and have no text node to compare with. *)
Definition remove_rules_variant (variant_list : list VariantNode)
  (name : string) : outcome (list VariantNode) :=
  if negb (xml_compatible name) then Raise ValueError
  else if name =? EmptyString then Return variant_list
  else Return (filter (fun v => negb (variant_name v =? name)) variant_list).

(** [E.name(name)] and [E.description(description)] raise for a string lxml
    does not take. *)
Definition add_rules_variant (variant_list : list VariantNode)
  (name description : string) : outcome (list VariantNode) :=
  if xml_compatible name && xml_compatible description then
    Return (variant_list ++
            [{| variant_type := None; variant_name := name;
                variant_description := description |}])%list
  else Raise ValueError.

(** The inner loop of [update_rules] over the entries of one locale. *)
Fixpoint update_rules_variants (variant_list : list VariantNode)
  (named_layouts : Variant) : outcome (list VariantNode) :=
  match named_layouts with
  | [] => Return variant_list
  | (name, layout) :: rest =>
      and_then (remove_rules_variant variant_list name) (fun vl =>
      and_then (match layout with
                | Some l => add_rules_variant vl name (meta_description l)
                | None => Return vl
                end)
               (fun vl' => update_rules_variants vl' rest))
  end.

Fixpoint replace_nth {X} (n : nat) (x : X) (l : list X) : list X :=
  match l, n with
  | [], _ => []
  | _ :: l', O => x :: l'
  | y :: l', S n' => y :: replace_nth n' x l'
  end.

(** The body of the loop over the locales of the index, on the parsed tree. *)
Definition update_rules_locale (filepath : string) (tree : Tree)
  (locale : string) (named_layouts : Variant) : outcome Tree :=
  and_then (get_rules_locale tree locale) (fun found =>
    let tree' := fst found in
    let i := snd found in
    match nth_error tree' i with
    | None => Raise IndexError
    | Some node =>
        match variantLists node with
        | [vlist] =>
            and_then (update_rules_variants vlist named_layouts) (fun vl =>
              Return
                (replace_nth i
                   {| layout_name := layout_name node;
                      variantLists := [vl] |}
                   tree'))
        | _ => SystemExit ("Error: unexpected xml format in " ++ filepath
                           ++ ".")
        end
    end).

Fixpoint update_rules_tree (filepath : string) (tree : Tree) (kb_index : Index)
  : outcome Tree :=
  match kb_index with
  | [] => Return tree
  | (locale, named_layouts) :: rest =>
      match update_rules_locale filepath tree locale named_layouts with
      | Return tree' => update_rules_tree filepath tree' rest
      | other => other
      end
  end.

Definition lift {A} (o : outcome A) : M A := fun d => (o, d).

(** The body of the loop of [update_rules] for one shard file. *)
Definition update_rules_file (e : env) (kb_index : Index) (filename : string)
  : M unit :=
  let filepath := rules_path e filename in
  content <- get_rules filename ;;
  match content with
  | None => ret tt
  | Some parsed =>
      try_except
        (open_path e Read filepath ;;;
         tree <- lift (update_rules_tree filepath parsed kb_index) ;;
         open_path e Write filepath ;;;
         set_rules filename tree ;;;
         log_write filepath)
        (fun exc => exit_FileNotWritable exc filepath)
  end.

(** Update references in XKB/rules/{base,evdev}.xml. *)
Definition update_rules (e : env) (kb_index : Index) : M unit :=
  for_each ["base.xml"; "evdev.xml"] (update_rules_file e kb_index).

(** The two masks [list_rules] derives from its argument. *)
Definition parse_mask (mask : string) : string * string :=
  if (mask =? EmptyString) || (mask =? "*") then ("*", "*")
  else
    match split_slash mask with
    | [locale_mask; variant_mask] => (locale_mask, variant_mask)
    | _ => (mask, "*")
    end.

(** [//variant] with, for each variant, the name of the layout two levels up. *)
Definition xpath_variants (tree : Tree) : list (string * VariantNode) :=
  flat_map (fun l => map (fun v => (layout_name l, v))
                         (List.concat (variantLists l))) tree.

(** [m in ("*", x)] *)
Definition mask_accepts (m x : string) : bool := (m =? "*") || (m =? x).

Definition list_rules_variant (locale_mask variant_mask : string)
  (kb_index : Listing) (lv : string * VariantNode) : Listing :=
  let locale := fst lv in
  let name := variant_name (snd lv) in
  let desc := variant_description (snd lv) in
  if mask_accepts locale_mask locale && mask_accepts variant_mask name then
    nested_set kb_index locale name desc
  else kb_index.

(** List all matching XKB layouts. *)
Definition list_rules (d : disk) (mask : string) : Listing :=
  let '(locale_mask, variant_mask) := parse_mask mask in
  fold_left
    (fun kb_index filename =>
       match dict_get (rules_files d) filename with
       | None => kb_index
       | Some tree =>
           fold_left (list_rules_variant locale_mask variant_mask)
                     (xpath_variants tree) kb_index
       end)
    ["base.xml"; "evdev.xml"] [].

(* ------------------------------------------------------------------------- *)
(** ** XKBManager *)

(** [//variant[@type]]: every variant loses its [type] attribute. *)
Definition drop_type (v : VariantNode) : VariantNode :=
  {| variant_type := None; variant_name := variant_name v;
     variant_description := variant_description v |}.

Definition drop_types (tree : Tree) : Tree :=
  map (fun l => {| layout_name := layout_name l;
                   variantLists := map (map drop_type) (variantLists l) |})
      tree.

Module XKBManager.

Record t := {
  _as_root : bool;
  _rootdir : string;
  _index : Index
}.

Definition with_index (self : t) (i : Index) : t :=
  {| _as_root := _as_root self; _rootdir := _rootdir self; _index := i |}.

Definition add (self : t) (layout : KeyboardLayout) : t :=
  with_index self
    (nested_set (_index self) (meta_locale layout) (meta_variant layout)
                (Some layout)).

Definition remove (self : t) (locale variant : string) : t :=
  with_index self (nested_set (_index self) locale variant None).

(** The helpers are called with [self._rootdir]. *)
Definition env_of (os : faults) (self : t) : env :=
  {| rootdir := _rootdir self; fault := os |}.

(** Rules, then symbols, then the index is emptied. *)
Definition update (os : faults) (self : t) : M t :=
  update_rules (env_of os self) (_index self) ;;;
  update_symbols (env_of os self) (_index self) ;;;
  ret (with_index self []).

(** One round of the loop of [clean]: the tree held in memory once the
    [type] attributes are popped, when the file exists. *)
Definition clean_file (e : env) (filename : string) : M (option Tree) :=
  content <- get_rules filename ;;
  match content with
  | None => ret None
  | Some parsed =>
      open_path e Read (rules_path e filename) ;;;
      ret (Some (drop_types parsed))
  end.

(** Drop the obsolete 'type' attributes Kalamine used to add. *)
Definition clean (os : faults) (self : t) : M unit :=
  for_each ["base.xml"; "evdev.xml"]
           (fun filename => clean_file (env_of os self) filename ;;; ret tt).

Definition list_all (d : disk) (mask : string) : Listing :=
  list_rules d mask.

Definition list (d : disk) (mask : string) : Listing :=
  list_symbols d (list_rules d mask).

End XKBManager.

(* ------------------------------------------------------------------------- *)
(** ** Predicates used in the statements *)

Fixpoint all_space (s : string) : bool :=
  match s with
  | EmptyString => true
  | String c s' => isspace c && all_space s'
  end.


(** [line] is a begin marker that names a key of the mapping: the first
    branch of the scanning loop is taken and a block is opened. *)
Definition opens (named_layouts : Variant) (line : string) : bool :=
  match truthy (is_new_symbol_mark line) with
  | Some name => has_key named_layouts name
  | None => false
  end.

(** The end marker that goes with a begin marker: its prefix, up to and
    including the last [::], followed by [END]. *)
Definition matching_end (opener : string) : string :=
  drop_last 6 opener ++ "END" ++ nl.


(** A line that is neither a begin marker nor an end marker by its ending. *)
Definition plain_line (l : string) : bool :=
  negb (endswith l ("::BEGIN" ++ nl)) && negb (endswith l ("::END" ++ nl)).

(* ------------------------------------------------------------------------- *)
(** ** Sample inputs *)

Module Sample.

Definition layout (locale variant description body : string)
  : KeyboardLayout :=
  {| meta_locale := locale; meta_variant := variant;
     meta_description := description; xkb_symbols := body |}.

Definition foo_begin : string := "// KALAMINE::FOO::BEGIN" ++ nl.
Definition foo_end : string := "// KALAMINE::FOO::END" ++ nl.
Definition head_line : string := "partial alphanumeric_keys" ++ nl.
Definition open_line : string := "xkb_symbols {" ++ nl.
Definition trailer_line : string := "// trailer" ++ nl.

(** Removal of [foo], and of both [foo] and [bar]. *)
Definition remove_foo : Variant := [("foo", None)].

(** A [foo] block that holds an end marker of another block. *)
Definition foreign_end_file : string :=
  foo_begin ++ "xkb_symbols {" ++ nl ++ "// OTHER::END" ++ nl ++ "};" ++ nl
  ++ foo_end.



(** A [foo] block between other text. *)
Definition close_line : string := "};" ++ nl.

Definition plain_file : string :=
  head_line ++ nl ++ foo_begin ++ open_line ++ close_line ++ foo_end
  ++ nl ++ trailer_line.

End Sample.

Module SampleDisk.

Definition no_fault : faults := fun _ _ => None.

Definition env_ok : env :=
  {| rootdir := "/usr/share/X11/xkb"; fault := no_fault |}.

Definition variant (name description : string) : VariantNode :=
  {| variant_type := None; variant_name := name;
     variant_description := description |}.

(** A registry with the locale [fr] and its variants [azerty] and [bepo]. *)
Definition fr_tree : Tree :=
  [{| layout_name := "fr";
      variantLists := [[variant "azerty" "French (AZERTY)";
                        variant "bepo" "French (Bepo)"]] |}].

(** [rules/base.xml] exists, [symbols/fr] holds one [bepo] block. *)
Definition fr_disk : disk :=
  {| rules_files := [("base.xml", fr_tree)];
     symbols_files :=
       [("fr", "// Generated by Kalamine" ++ nl ++ nl
               ++ "// KALAMINE::BEPO::BEGIN" ++ nl ++ "xkb_symbols {};" ++ nl
               ++ "// KALAMINE::BEPO::END" ++ nl)];
     written := [] |}.

Definition manager (index : Index) : XKBManager.t :=
  {| XKBManager._as_root := true;
     XKBManager._rootdir := "/usr/share/X11/xkb";
     XKBManager._index := index |}.


Definition denied : exception :=
  {| exc_kind := PermissionError; exc_str := "Permission denied";
     exc_traceback := EmptyString |}.

(** Reading works; opening a file for writing or update raises [ex]. *)
Definition env_failing (ex : exception) : env :=
  {| rootdir := "/usr/share/X11/xkb";
     fault := fun a _ => match a with
                         | Read => None
                         | _ => Some ex
                         end |}.

End SampleDisk.

Module SampleFailure.




End SampleFailure.



(** The decorated call both [update_rules] and [update_symbols] make: the
    rewriting of the file at [path], guarded by [exit_FileNotWritable]. *)
Definition guarded {A} (m : M A) (path : string) : M A :=
  try_except m (fun exc => exit_FileNotWritable exc path).

(** A command that ends with the disk it started from. *)
Definition reads_only {A} (m : M A) : Prop := forall d, snd (m d) = d.

(** The shard files that exist, as paths. *)
Definition existing_shards (e : env) (d : disk) : list string :=
  map (rules_path e)
      (filter (has_key (rules_files d)) ["base.xml"; "evdev.xml"]).

(** [name] occurs in the variant list that many times. *)
Definition count_name (name : string) (variant_list : list VariantNode) : nat :=
  count_occ string_dec (map variant_name variant_list) name.

(** No operation on [e] fails. *)
Definition no_faults (e : env) : Prop := forall a p, fault e a p = None.


(** The registry declares the variant [v] of the locale [l] in a shard file
    that exists. *)
Definition declared (d : disk) (l v : string) : bool :=
  existsb
    (fun filename =>
       match dict_get (rules_files d) filename with
       | Some tree =>
           existsb (fun lv => (fst lv =? l) && (variant_name (snd lv) =? v))
                   (xpath_variants tree)
       | None => false
       end)
    ["base.xml"; "evdev.xml"].

(** The mask lets the pair through. *)
Definition mask_matches (mask l v : string) : bool :=
  mask_accepts (fst (parse_mask mask)) l
  && mask_accepts (snd (parse_mask mask)) v.



(** A variant name that survives the marker: not empty, given back by the
    two case conversions, and without a line feed once in upper case. *)
Definition stable_name (name : string) : bool :=
  negb (name =? EmptyString) && (lower (upper name) =? name)
  && negb (has_char "010" (upper name)).

(** The strings of the list are pairwise different. *)
Fixpoint distinct (l : list string) : bool :=
  match l with
  | [] => true
  | x :: l' => negb (existsb (String.eqb x) l') && distinct l'
  end.

Definition is_ascii_char (c : ascii) : bool := (nat_of_ascii c <? 128)%nat.

Fixpoint is_ascii (s : string) : bool :=
  match s with
  | EmptyString => true
  | String c s' => is_ascii_char c && is_ascii s'
  end.

(** The printable ASCII characters, from the space to the tilde. *)
Definition printable_char (c : ascii) : bool :=
  let n := nat_of_ascii c in ((32 <=? n) && (n <? 127))%nat.

Fixpoint printable (s : string) : bool :=
  match s with
  | EmptyString => true
  | String c s' => printable_char c && printable s'
  end.

(** A name on which the case conversions, the queries and lxml are as the
    model has them: not empty, made of printable ASCII characters, and free
    of the double quote. *)
Definition plain_name (name : string) : bool :=
  negb (name =? EmptyString) && printable name && xpath_safe name.

(** A locale that names a file of its own under [symbols/]: one component of
    a path, other than [.] and [..], without a NUL byte. *)
Definition file_name (locale : string) : bool :=
  negb (locale =? EmptyString) && negb (has_char "/" locale)
  && negb (has_char "000" locale)
  && negb (locale =? ".") && negb (locale =? "..").

(** Reading a file turns a carriage return into a line feed: a text without
    one is read back as it was written. *)
Definition no_cr (s : string) : bool := negb (has_char "013" s).

(** The spaces of Unicode beyond ASCII, in UTF-8: U+0085, U+00A0, U+1680,
    U+2000 to U+200A, U+2028, U+2029, U+202F, U+205F and U+3000. *)
Definition utf8 (bytes : list nat) : string :=
  fold_right (fun n s => String (ascii_of_nat n) s) EmptyString bytes.

Definition unicode_spaces : list string :=
  map utf8
      [[194; 133]; [194; 160]; [225; 154; 128];
       [226; 128; 128]; [226; 128; 129]; [226; 128; 130]; [226; 128; 131];
       [226; 128; 132]; [226; 128; 133]; [226; 128; 134]; [226; 128; 135];
       [226; 128; 136]; [226; 128; 137]; [226; 128; 138];
       [226; 128; 168]; [226; 128; 169]; [226; 128; 175];
       [226; 129; 159]; [227; 128; 128]].

(** Once trimmed of its ASCII spaces the text does not end in another space
    of Unicode: [str.rstrip] then removes what [rstrip] removes. *)
Definition trims_alike (s : string) : bool :=
  negb (existsb (endswith (rstrip s)) unicode_spaces).

(** A line that ends like a begin marker is made of ASCII characters, so
    that its name is lowered as [lower] does. *)
Definition ascii_marker (line : string) : bool :=
  negb (endswith line ("::BEGIN" ++ nl)) || is_ascii line.

(** A text on which reading, trimming and marker recognition are as the
    model has them: no carriage return, no line that ends in a space of
    Unicode beyond ASCII, and ASCII characters in the lines that end like a
    begin marker. *)
Definition exact_text (s : string) : bool :=
  no_cr s
  && forallb (fun line => trims_alike line && ascii_marker line)
             (readlines s).

(** The entries of a mapping have stable, plain names, and the bodies to
    install are exact texts without a line that ends like a marker. *)
Definition well_formed_variant (named_layouts : Variant) : bool :=
  forallb
    (fun entry =>
       stable_name (fst entry) && plain_name (fst entry)
       && match snd entry with
          | Some layout =>
              forallb plain_line (readlines (body_text layout))
              && exact_text (xkb_symbols layout)
          | None => true
          end)
    named_layouts.

(** The names of the mapping are made of ASCII characters and the bodies to
    install are exact texts: the blocks are written as [new_blocks] has
    them. *)
Definition exact_variant (named_layouts : Variant) : bool :=
  forallb
    (fun entry =>
       is_ascii (fst entry)
       && match snd entry with
          | Some layout => exact_text (xkb_symbols layout)
          | None => true
          end)
    named_layouts.

(** lxml takes the names of the mapping and the descriptions of the layouts
    it installs. *)
Definition lxml_accepts (named_layouts : Variant) : bool :=
  forallb
    (fun entry =>
       xml_compatible (fst entry)
       && match snd entry with
          | Some layout => xml_compatible (meta_description layout)
          | None => true
          end)
    named_layouts.

(** The mapping goes through the inner loop of [update_rules]: its names
    are distinct, as the keys of a dictionary are, none is empty, and lxml
    takes them and the descriptions. *)
Definition rules_variant_ok (named_layouts : Variant) : bool :=
  distinct (keys named_layouts)
  && forallb (fun k => negb (k =? EmptyString)) (keys named_layouts)
  && lxml_accepts named_layouts.

(** A block of the symbols file, by the name its marker is read back under
    and its body. *)
Definition Block := (string * string)%type.

(** The text of a block as [update_symbols_locale] writes it: a blank line,
    the begin marker, the body and the end marker. *)
Definition block_text (blk : Block) : string :=
  nl ++ mark_begin (get_symbol_mark (fst blk)) ++ snd blk
     ++ mark_end (get_symbol_mark (fst blk)).

Definition blocks_text (blocks : list Block) : string :=
  join (map block_text blocks).

(** The name of the block is stable and plain; the body is an exact text
    made of whole lines, none of which ends like a marker. *)
Definition well_formed_block (blk : Block) : bool :=
  stable_name (fst blk) && plain_name (fst blk)
  && forallb plain_line (readlines (snd blk))
  && endswith (snd blk) nl && exact_text (snd blk).

(** The text the scanning pass has kept after the blocks, from the text [t]
    kept before them: a block the mapping names goes, with the blank line
    before it, and the text is trimmed; another block is kept. *)
Fixpoint blocks_kept_text (named_layouts : Variant) (blocks : list Block)
  (t : string) : string :=
  match blocks with
  | [] => t
  | blk :: rest =>
      if has_key named_layouts (fst blk)
      then blocks_kept_text named_layouts rest (rstrip t)
      else blocks_kept_text named_layouts rest (t ++ block_text blk)
  end.

(** A stretch of a symbols file: lines outside the blocks of the mapping,
    or a block, from its begin marker to the matching end marker. *)
Inductive segment :=
| Outside (lines : list string)
| Dropped (opener : string) (body : list string).

Definition segment_lines (seg : segment) : list string :=
  match seg with
  | Outside lines => lines
  | Dropped opener body => opener :: (body ++ [matching_end opener])%list
  end.

Definition is_dropped (seg : segment) : bool :=
  match seg with Outside _ => false | Dropped _ _ => true end.

(** Outside the blocks no line is a begin marker naming a key of the
    mapping; a block opens with such a marker and none of the lines of its
    body ends like a marker. *)
Definition segment_ok (named_layouts : Variant) (seg : segment) : bool :=
  match seg with
  | Outside lines =>
      forallb (fun line => negb (opens named_layouts line)) lines
  | Dropped opener body =>
      opens named_layouts opener && forallb plain_line body
  end.

(** The text the scanning pass has kept after the stretches: the lines
    outside the blocks, trimmed where a block starts. *)
Fixpoint kept_text (segs : list segment) (t : string) : string :=
  match segs with
  | [] => t
  | Outside lines :: rest => kept_text rest (t ++ join lines)
  | Dropped _ _ :: rest => kept_text rest (rstrip t)
  end.

(** The line is recognized as the begin marker of [name]. *)
Definition names_marker (name line : string) : bool :=
  match is_new_symbol_mark line with
  | Some n => n =? name
  | None => false
  end.

(** The number of lines of the text recognized as the begin marker of
    [name]. *)
Definition marker_count (name : string) (content : string) : nat :=
  List.length (filter (names_marker name) (readlines content)).

(** The lines a block is made of. *)
Definition block_text_lines (blk : Block) : list string :=
  nl :: mark_begin (get_symbol_mark (fst blk))
     :: (readlines (snd blk) ++ [mark_end (get_symbol_mark (fst blk))])%list.

(** The text kept so far ends a line, or was just trimmed, and with its
    last line ended it has no begin marker naming a key of the mapping. *)
Definition settled_text (named_layouts : Variant) (t : string) : Prop :=
  (t = rstrip t ++ nl \/ t = rstrip t) /\
  forallb (fun line => negb (opens named_layouts line))
          (readlines (rstrip t ++ nl)) = true.

(** Text that ends with one line feed after its last visible character and
    has no begin marker naming a key of the mapping. *)
Definition normal_base (named_layouts : Variant) (b : string) : bool :=
  (b =? rstrip b ++ nl)
  && forallb (fun line => negb (opens named_layouts line)) (readlines b).

(** The lines the block of one entry is made of. *)
Definition block_lines (entry : string * option KeyboardLayout) : list string :=
  match snd entry with
  | None => []
  | Some layout =>
      nl :: mark_begin (get_symbol_mark (fst entry))
         :: (readlines (body_text layout)
             ++ [mark_end (get_symbol_mark (fst entry))])%list
  end.

(** The node [update_rules] appends for an entry that holds a layout. *)
Definition variant_node (name : string) (layout : KeyboardLayout)
  : VariantNode :=
  {| variant_type := None; variant_name := name;
     variant_description := meta_description layout |}.

(** The nodes a mapping installs, in the order of its entries. *)
Definition installed_variants (named_layouts : Variant) : list VariantNode :=
  flat_map (fun entry => match snd entry with
                         | Some layout => [variant_node (fst entry) layout]
                         | None => []
                         end)
           named_layouts.


(** The tree has one layout for the locale, whose variant list is what the
    mapping makes of it. *)
Definition settled_locale (tree : Tree) (locale : string)
  (named_layouts : Variant) : Prop :=
  exists i node vl,
    xpath_layouts tree locale 0 = [i] /\ nth_error tree i = Some node /\
    variantLists node = [vl] /\
    update_rules_variants vl named_layouts = Return vl.

(** The layouts of the locale are the same nodes at the same places. *)
Definition same_locale (t t' : Tree) (locale : string) : Prop :=
  xpath_layouts t' locale 0 = xpath_layouts t locale 0 /\
  forall j, In j (xpath_layouts t locale 0) -> nth_error t' j = nth_error t j.



(** The file is a normal base followed by blocks as Kalamine writes them,
    for variants of the mapping or for others, in any number and order. *)
Definition symbols_file_ready (named_layouts : Variant) (content : string)
  : Prop :=
  exists b blocks,
    content = b ++ blocks_text blocks /\
    normal_base named_layouts b = true /\ exact_text b = true /\
    forallb well_formed_block blocks = true.


(** Every shard file that exists is settled for every locale of the index. *)
Definition rules_settled (d : disk) (kb_index : Index) : Prop :=
  forall filename tree,
    In filename ["base.xml"; "evdev.xml"] ->
    dict_get (rules_files d) filename = Some tree ->
    forall locale m, In (locale, m) kb_index -> settled_locale tree locale m.


Module SampleReplace.

(** [symbols/fr] as earlier commits left it: a base, a [bepo] block and an
    [oss] block. *)
Definition blocks : list Block :=
  [("bepo", "old {};" ++ nl); ("oss", "oss {};" ++ nl)].

Definition symbols_fr : string := Sample.head_line ++ blocks_text blocks.

Definition new_bepo : KeyboardLayout :=
  Sample.layout "fr" "bepo" "French (Bepo, new)" "new {};".

(** The mapping that installs the new [bepo] and removes [azerty]. *)
Definition variants : Variant := [("bepo", Some new_bepo); ("azerty", None)].

Definition registry : Tree :=
  [{| layout_name := "fr";
      variantLists := [[SampleDisk.variant "azerty" "French (AZERTY)";
                        SampleDisk.variant "bepo" "French (Bepo)";
                        SampleDisk.variant "oss" "French (OSS)"]] |}].

Definition disk0 : disk :=
  {| rules_files := [("base.xml", registry)];
     symbols_files := [("fr", symbols_fr)];
     written := [] |}.

Definition self : XKBManager.t :=
  XKBManager.remove (XKBManager.add (SampleDisk.manager []) new_bepo)
                    "fr" "azerty".

End SampleReplace.

Module SampleCommit.

Definition bepo : KeyboardLayout :=
  Sample.layout "fr" "bepo" "French (Bepo)" "xkb_symbols {};".

(** The mapping that installs [bepo]. *)
Definition install_bepo : Variant := [("bepo", Some bepo)].

(** The manager after [add(bepo)]. *)
Definition self : XKBManager.t :=
  XKBManager.add (SampleDisk.manager []) bepo.





End SampleCommit.

(* ------------------------------------------------------------------------- *)
(** ** Further predicates: the index *)

(** [index[k1][k2]], when both keys are there. *)
Definition nested_get {X} (index : Dict (Dict X)) (k1 k2 : string) : option X :=
  match dict_get index k1 with
  | Some inner => dict_get inner k2
  | None => None
  end.

(** The keys of a dictionary of dictionaries are distinct at both levels. *)
Definition distinct_nested {X} (index : Dict (Dict X)) : Prop :=
  distinct (keys index) = true /\
  forall k inner, In (k, inner) index -> distinct (keys inner) = true.

(** [c] is one of the letters [A] to [Z]. *)
Definition is_upper_char (c : ascii) : bool :=
  let n := nat_of_ascii c in ((65 <=? n) && (n <=? 90))%nat.

(** The name holds an upper-case letter. *)
Fixpoint has_upper (s : string) : bool :=
  match s with
  | EmptyString => false
  | String c s' => is_upper_char c || has_upper s'
  end.

(** Names the queries of the module can hold between double quotes: free of
    the double quote, and not empty, an element without text having no text
    node to compare with. *)
Definition xpath_name (name : string) : bool :=
  negb (name =? EmptyString) && xpath_safe name.

(** The locales and the variant names of the index are such names. *)
Definition xpath_index (kb_index : Index) : bool :=
  forallb (fun entry => xpath_name (fst entry)
                        && forallb xpath_name (keys (snd entry)))
          kb_index.

(** lxml takes every string of the index: the locales, the variant names
    and the descriptions of the layouts to install. *)
Definition xml_index (kb_index : Index) : bool :=
  forallb (fun entry => xml_compatible (fst entry) && lxml_accepts (snd entry))
          kb_index.

(** Every layout of the tree has one [variantList]. *)
Definition one_variant_list (tree : Tree) : bool :=
  forallb (fun node => (List.length (variantLists node) =? 1)%nat) tree.

(** The number of layouts of the tree with that name. *)
Definition count_layouts (tree : Tree) (locale : string) : nat :=
  List.length (xpath_layouts tree locale 0).

Module SampleTree.

(** A registry in which the locale [fr] has two layouts. *)
Definition doubled : Tree :=
  [ {| layout_name := "fr";
       variantLists := [[SampleDisk.variant "azerty" "French (AZERTY)"]] |};
    {| layout_name := "de"; variantLists := [[]] |};
    {| layout_name := "fr"; variantLists := [[]] |} ].

Definition install_bepo : Variant :=
  [("bepo", Some (Sample.layout "fr" "bepo" "French (Bepo)" "xkb"))].

End SampleTree.


(** A command that ends with the part [proj] of the disk as it found it. *)
Definition keeps {A X} (proj : disk -> X) (m : M A) : Prop :=
  forall d, proj (snd (m d)) = proj d.

Module SampleBroken.

(** A registry whose layout [fr] has no [variantList]. *)
Definition tree : Tree := [ {| layout_name := "fr"; variantLists := [] |} ].



Definition manager : XKBManager.t :=
  XKBManager.add
    {| XKBManager._as_root := true;
       XKBManager._rootdir := "/usr/share/X11/xkb";
       XKBManager._index := [] |}
    (Sample.layout "fr" "bepo" "French (Bepo)" "xkb_symbols {};").

End SampleBroken.





Module SampleCustom.

Definition custom : KeyboardLayout :=
  Sample.layout "custom" "ergol" "Ergo-L" "xkb_symbols {};".

Definition self : XKBManager.t :=
  XKBManager.add (SampleDisk.manager []) custom.


End SampleCustom.




Module SampleTwice.

(** [bepo] is declared twice in [base.xml] and once more in [evdev.xml]. *)
Definition registry : disk :=
  {| rules_files :=
       [("base.xml",
         [{| layout_name := "fr";
             variantLists := [[SampleDisk.variant "bepo" "first";
                               SampleDisk.variant "bepo" "second"]] |}]);
        ("evdev.xml",
         [{| layout_name := "fr";
             variantLists := [[SampleDisk.variant "bepo" "third"]] |}])];
     symbols_files := [];
     written := [] |}.

End SampleTwice.


(* ------------------------------------------------------------------------- *)
(** ** The environment and the XKB configuration in user space *)

(** A path, as the list of its components from the root. *)
Definition Path := list string.

(** [p / name] *)
Definition joinpath (p : Path) (name : string) : Path := (p ++ [name])%list.

(** [p.parent] *)
Definition parent (p : Path) : Path := removelast p.

Definition path_eqb (p q : Path) : bool :=
  if list_eq_dec string_dec p q then true else false.

Section Environment.

(** [os.environ], [Path.home()] and the reading of a string as a path. *)
Variable environ : Dict string.
Variable home : Path.
Variable Path_of : string -> Path.

(** [environ.get(name)] when it is true: set, and not to the empty string. *)
Definition environ_get (name : string) : option string :=
  match dict_get environ name with
  | Some EmptyString => None
  | other => other
  end.

Definition xdg_config_home : Path :=
  match environ_get "XDG_CONFIG_HOME" with
  | Some xdg_config => Path_of xdg_config
  | None => joinpath home ".config"
  end.

Definition wayland_running : bool :=
  match environ_get "XDG_SESSION_TYPE" with
  | Some xdg_session => startswith xdg_session "wayland"
  | None => false
  end.

Definition XKB_HOME : Path := joinpath xdg_config_home "xkb".

Definition XKB_ROOT : Path :=
  Path_of (match environ_get "XKB_CONFIG_ROOT" with
           | Some root => root
           | None => "/usr/share/X11/xkb/"
           end).

End Environment.

(** The directories and the files of the file system, with their text. *)
Record fs := {
  fs_dirs : list Path;
  fs_files : list (Path * string)
}.

Definition is_dir (s : fs) (p : Path) : bool :=
  existsb (path_eqb p) (fs_dirs s).

Definition read_text (s : fs) (p : Path) : option string :=
  match find (fun entry => path_eqb p (fst entry)) (fs_files s) with
  | Some entry => Some (snd entry)
  | None => None
  end.

Definition is_file (s : fs) (p : Path) : bool :=
  match read_text s p with Some _ => true | None => false end.

(** [p.exists()] *)
Definition path_exists (s : fs) (p : Path) : bool := is_dir s p || is_file s p.

Definition FileExistsError : exception :=
  {| exc_kind := OtherOSError; exc_str := "File exists";
     exc_traceback := EmptyString |}.

Definition NotADirectoryError : exception :=
  {| exc_kind := OtherOSError; exc_str := "Not a directory";
     exc_traceback := EmptyString |}.

Definition IsADirectoryError : exception :=
  {| exc_kind := OtherOSError; exc_str := "Is a directory";
     exc_traceback := EmptyString |}.

(** Commands on the file system. *)
Definition FS (A : Type) : Type := fs -> outcome A * fs.

Definition fs_ret {A} (a : A) : FS A := fun s => (Return a, s).

Definition fs_bind {A B} (m : FS A) (k : A -> FS B) : FS B :=
  fun s =>
    match m s with
    | (Return a, s') => k a s'
    | (Raise e, s') => (Raise e, s')
    | (SystemExit msg, s') => (SystemExit msg, s')
    end.

Fixpoint fs_for_each {X} (xs : list X) (body : X -> FS unit) : FS unit :=
  match xs with
  | [] => fs_ret tt
  | x :: xs' => fs_bind (body x) (fun _ => fs_for_each xs' body)
  end.

(** What stands in the way of a new entry under the parent of [p]. *)
Definition parent_error (s : fs) (p : Path) : exception :=
  if is_file s (parent p) then NotADirectoryError else FileNotFoundError.

(** [p.mkdir(exist_ok=True)]: a directory that is there is left alone; the
    parent is not created. *)
Definition mkdir_exist_ok (p : Path) : FS unit :=
  fun s =>
    if is_dir s p then (Return tt, s)
    else if is_file s p then (Raise FileExistsError, s)
    else if is_dir s (parent p) then
      (Return tt,
       {| fs_dirs := (fs_dirs s ++ [p])%list; fs_files := fs_files s |})
    else (Raise (parent_error s p), s).

(** [p.write_text(content)] *)
Definition write_text (p : Path) (content : string) : FS unit :=
  fun s =>
    if is_dir s p then (Raise IsADirectoryError, s)
    else if is_dir s (parent p) then
      (Return tt,
       {| fs_dirs := fs_dirs s;
          fs_files := (p, content)
                   :: filter (fun entry => negb (path_eqb p (fst entry)))
                             (fs_files s) |})
    else (Raise (parent_error s p), s).

(** [if not p.exists(): p.write_text(content)] *)
Definition write_text_if_missing (p : Path) (content : string) : FS unit :=
  fun s => if path_exists s p then (Return tt, s) else write_text p content s.

Definition double_quote : string := String "034" EmptyString.

(** The text of [rules/{ruleset}] once dedented. *)
Definition rules_text (ruleset : string) : string :=
  nl ++ "// Generated by Kalamine" ++ nl
     ++ "// Include the system '" ++ ruleset ++ "' file" ++ nl
     ++ "! include %S/" ++ ruleset ++ nl.

(** The text of [rules/{ruleset}.xml] once dedented. *)
Definition rules_xml_text : string :=
  "<?xml version=" ++ double_quote ++ "1.0" ++ double_quote
    ++ " encoding=" ++ double_quote ++ "UTF-8" ++ double_quote ++ "?>" ++ nl
    ++ "<!DOCTYPE xkbConfigRegistry SYSTEM " ++ double_quote ++ "xkb.dtd"
    ++ double_quote ++ ">" ++ nl
    ++ "<!-- Generated by Kalamine -->" ++ nl
    ++ "<xkbConfigRegistry version=" ++ double_quote ++ "1.1" ++ double_quote
    ++ ">" ++ nl
    ++ "    <layoutList/>" ++ nl
    ++ "</xkbConfigRegistry>" ++ nl.

Definition xkb_subdirs : list string :=
  ["compat"; "keycodes"; "rules"; "symbols"; "types"].

(** [XKBManager.ensure_xkb_config_is_ready]: ensure there is an XKB
    configuration in user-space.  [xkb_home] is the constant [XKB_HOME]. *)
Definition ensure_xkb_config_is_ready (xkb_home : Path) (self : XKBManager.t)
  : FS unit :=
  if XKBManager._as_root self then fs_ret tt
  else
    fs_bind (mkdir_exist_ok xkb_home) (fun _ =>
    fs_bind (fs_for_each xkb_subdirs
               (fun subdir => mkdir_exist_ok (joinpath xkb_home subdir)))
            (fun _ =>
    fs_for_each ["evdev"]
      (fun ruleset =>
         fs_bind (write_text_if_missing
                    (joinpath (joinpath xkb_home "rules") ruleset)
                    (rules_text ruleset))
                 (fun _ =>
         write_text_if_missing
           (joinpath (joinpath xkb_home "rules") (ruleset ++ ".xml"))
           rules_xml_text)))).

(** Nothing of [s] is lost in [s']: the directories are still directories
    and the files still hold their text. *)
Definition fs_le (s s' : fs) : Prop :=
  (forall p, is_dir s p = true -> is_dir s' p = true) /\
  (forall p content, read_text s p = Some content ->
                     read_text s' p = Some content).

(** The configuration [ensure_xkb_config_is_ready] looks for is there. *)
Definition xkb_config_ready (xkb_home : Path) (s : fs) : bool :=
  is_dir s xkb_home
  && forallb (fun subdir => is_dir s (joinpath xkb_home subdir)) xkb_subdirs
  && path_exists s (joinpath (joinpath xkb_home "rules") "evdev")
  && path_exists s (joinpath (joinpath xkb_home "rules") "evdev.xml").

Module SampleHome.

Definition config : Path := ["home"; "user"; ".config"].

Definition user : XKBManager.t :=
  {| XKBManager._as_root := false;
     XKBManager._rootdir := "/home/user/.config/xkb";
     XKBManager._index := [] |}.

(** A home directory with its configuration directory, and one without. *)
Definition with_config : fs :=
  {| fs_dirs := [["home"]; ["home"; "user"]; config]; fs_files := [] |}.

Definition without_config : fs :=
  {| fs_dirs := [["home"]; ["home"; "user"]]; fs_files := [] |}.

(** A configuration in which [rules/evdev.xml] is already there. *)
Definition with_rules : fs :=
  {| fs_dirs := [["home"]; ["home"; "user"]; config;
              joinpath config "xkb";
              joinpath (joinpath config "xkb") "rules"];
     fs_files := [(joinpath (joinpath (joinpath config "xkb") "rules")
                         "evdev.xml",
                "<xkbConfigRegistry/>")] |}.

End SampleHome.


(* ------------------------------------------------------------------------- *)
(** * Facts about the string operations *)

Lemma append_nil_r (s : string) : s ++ EmptyString = s.
Proof. induction s as [|c s IH]; simpl; [reflexivity | now rewrite IH]. Qed.

Lemma append_assoc (a b c : string) : (a ++ b) ++ c = a ++ (b ++ c).
Proof. induction a as [|x a IH]; simpl; [reflexivity | now rewrite IH]. Qed.

Lemma length_append (a b : string) :
  String.length (a ++ b) = String.length a + String.length b.
Proof. induction a as [|x a IH]; simpl; [reflexivity | now rewrite IH]. Qed.

(** Two decompositions of one string with tails of the same length agree. *)
Lemma append_inj_length (a b s1 s2 : string) :
  a ++ s1 = b ++ s2 -> String.length s1 = String.length s2 ->
  a = b /\ s1 = s2.
Proof.
  revert b. induction a as [|x a IH]; intros [|y b] H L; simpl in *.
  - auto.
  - subst s1. simpl in L. rewrite length_append in L. lia.
  - subst s2. simpl in L. rewrite length_append in L. lia.
  - injection H as -> H. destruct (IH _ H L) as [-> ->]. auto.
Qed.

Lemma startswith_spec (s p : string) :
  startswith s p = true <-> exists r, s = p ++ r.
Proof.
  unfold startswith. revert s. induction p as [|c p IH]; intros s.
  - destruct s; simpl; split; eauto.
  - destruct s as [|d s]; simpl.
    + split; [discriminate | intros [r H]; discriminate].
    + destruct (ascii_dec c d) as [->|N].
      * rewrite IH. split; intros [r H]; exists r; [now rewrite H|].
        now injection H.
      * split; [discriminate|]. intros [r H]. injection H as H _. congruence.
Qed.

Lemma startswith_append (p r : string) : startswith (p ++ r) p = true.
Proof. apply startswith_spec. eauto. Qed.

Lemma startswith_refl (s : string) : startswith s s = true.
Proof. apply startswith_spec. exists EmptyString. now rewrite append_nil_r. Qed.

Lemma endswith_unfold (s suf : string) :
  endswith s suf =
  (s =? suf) || match s with
                | EmptyString => false
                | String _ s' => endswith s' suf
                end.
Proof. destruct s; reflexivity. Qed.

Lemma endswith_spec (s suf : string) :
  endswith s suf = true <-> exists p, s = p ++ suf.
Proof.
  induction s as [|c s IH]; rewrite endswith_unfold.
  - rewrite orb_false_r, String.eqb_eq. split.
    + intros <-. now exists EmptyString.
    + intros [[|x p] H]; simpl in H; [auto | discriminate].
  - rewrite orb_true_iff, String.eqb_eq, IH. split.
    + intros [<- | [p ->]]; [now exists EmptyString | now exists (String c p)].
    + intros [[|x p] H]; simpl in H; [auto|].
      injection H as -> ->. eauto.
Qed.

Lemma endswith_append (p suf : string) : endswith (p ++ suf) suf = true.
Proof. apply endswith_spec. eauto. Qed.

Lemma endswith_false (s suf : string) :
  (forall p, s <> p ++ suf) -> endswith s suf = false.
Proof.
  intros H. destruct (endswith s suf) eqn:E; [|reflexivity].
  apply endswith_spec in E. destruct E as [p E]. now elim (H p).
Qed.

(** [s[:-n]] removes a tail of length [n]. *)
Lemma substring_drop_tail (p q : string) :
  substring 0 (String.length (p ++ q) - String.length q) (p ++ q) = p.
Proof.
  rewrite length_append.
  replace (String.length p + String.length q - String.length q)
    with (String.length p) by lia.
  induction p as [|c p IH]; simpl.
  - destruct q; reflexivity.
  - now rewrite IH.
Qed.

(** [s[n:]] removes a head of length [n]. *)
Lemma substring_skip_head (p q : string) (m : nat) :
  substring (String.length p) m (p ++ q) = substring 0 m q.
Proof. induction p as [|c p IH]; simpl; [reflexivity | apply IH]. Qed.

Lemma slice_spec (p name q : string) :
  slice (String.length p) (String.length q) (p ++ name ++ q) = name.
Proof.
  unfold slice. rewrite substring_skip_head.
  rewrite !length_append.
  replace (String.length p + (String.length name + String.length q)
           - String.length q - String.length p)
    with (String.length (name ++ q) - String.length q)
    by (rewrite length_append; lia).
  apply substring_drop_tail.
Qed.

(** *** [rstrip] *)

Lemma rstrip_all_space (w : string) :
  all_space w = true -> rstrip w = EmptyString.
Proof.
  induction w as [|c w IH]; simpl; [reflexivity|].
  intros H. apply andb_true_iff in H as [Hc Hw].
  now rewrite (IH Hw), Hc.
Qed.

Lemma rstrip_append_space (s w : string) :
  all_space w = true -> rstrip (s ++ w) = rstrip s.
Proof.
  intros Hw. induction s as [|c s IH]; simpl.
  - now apply rstrip_all_space.
  - now rewrite IH.
Qed.

Lemma rstrip_idempotent (s : string) : rstrip (rstrip s) = rstrip s.
Proof.
  induction s as [|c s IH]; simpl; [reflexivity|].
  destruct (rstrip s) as [|d r] eqn:E.
  - destruct (isspace c) eqn:Hc; simpl; [reflexivity | now rewrite Hc].
  - simpl in *. rewrite IH. reflexivity.
Qed.

Lemma all_space_nl : all_space nl = true.
Proof. reflexivity. Qed.

Lemma rstrip_append_nl (s : string) : rstrip (s ++ nl) = rstrip s.
Proof. apply rstrip_append_space, all_space_nl. Qed.

(** *** Lines *)


Lemma join_readlines (s : string) : join (readlines s) = s.
Proof.
  unfold join. induction s as [|c s IH]; simpl; [reflexivity|].
  destruct (Ascii.eqb_spec c "010") as [->|N].
  - simpl. destruct (readlines s) eqn:E; simpl in *; now rewrite <- IH.
  - destruct (readlines s) as [|l0 ls] eqn:E; simpl in *.
    + now rewrite <- IH.
    + destruct ls; simpl in *; now rewrite <- IH.
Qed.


(* ------------------------------------------------------------------------- *)
(** * The operations on small inputs *)

Example rstrip_trailing_blanks :
  rstrip ("a b " ++ nl ++ " ") = "a b".
Proof. reflexivity. Qed.

Example readlines_keeps_line_feeds :
  readlines ("a" ++ nl ++ nl ++ "b") = ["a" ++ nl; nl; "b"].
Proof. reflexivity. Qed.

Example split_slash_three :
  split_slash "a/b/c" = ["a"; "b"; "c"] /\ split_slash "/" = [EmptyString; EmptyString].
Proof. split; reflexivity. Qed.

Example slice_of_short_marker :
  slice 13 8 ("// KALAMINE::BEGIN" ++ nl) = EmptyString /\
  drop_last 6 ("// KALAMINE::BEGIN" ++ nl) = "// KALAMINE::".
Proof. split; reflexivity. Qed.

Example drop_sentinel_lines_keeps_last :
  drop_sentinel_lines ("//# a" ++ nl ++ "x" ++ nl ++ "//#b" ++ nl ++ "//# last")
  = "x" ++ nl ++ "//# last".
Proof. reflexivity. Qed.

Example parse_mask_cases :
  parse_mask "fr/azerty" = ("fr", "azerty") /\
  parse_mask "fr" = ("fr", "*") /\
  parse_mask "a/b/c" = ("a/b/c", "*") /\
  parse_mask "*" = ("*", "*").
Proof. repeat split. Qed.

Example sorted_by_locale :
  keys (sorted [("fr", 1); ("de", 2); ("us", 3)]) = ["de"; "fr"; "us"].
Proof. reflexivity. Qed.

Example add_then_remove_last_write_wins :
  XKBManager._index
    (XKBManager.remove (XKBManager.add (SampleDisk.manager [])
                                       SampleCommit.bepo) "fr" "bepo")
  = [("fr", [("bepo", None)])].
Proof. reflexivity. Qed.

(** An exception that is not an [IOError] ends the process with its own
    text and the traceback. *)
Example other_exception_exit (path : string) (d : disk) :
  exit_FileNotWritable (A := unit) IndexError path d
  = (SystemExit ("Error: list index out of range." ++ nl), d).
Proof. reflexivity. Qed.

(** With the write denied, [update_rules] lets the permission error out and
    leaves the disk as it was. *)
Example update_rules_permission_denied :
  update_rules (SampleDisk.env_failing SampleDisk.denied)
               (XKBManager._index SampleCommit.self) SampleDisk.fr_disk
  = (Raise SampleDisk.denied, SampleDisk.fr_disk).
Proof. reflexivity. Qed.

(** The tree [clean] holds in memory has lost the [type] attributes. *)
Example clean_file_drops_types :
  let tree := [{| layout_name := "fr";
                  variantLists :=
                    [[{| variant_type := Some "kalamine";
                         variant_name := "lafayette42";
                         variant_description := "French (Lafayette42)" |}]] |}] in
  let d := {| rules_files := [("base.xml", tree)]; symbols_files := [];
              written := [] |} in
  XKBManager.clean_file SampleDisk.env_ok "base.xml" d
  = (Return (Some [{| layout_name := "fr";
                      variantLists :=
                        [[SampleDisk.variant "lafayette42"
                                             "French (Lafayette42)"]] |}]), d).
Proof. reflexivity. Qed.

(* ------------------------------------------------------------------------- *)
(** * Marker recognition *)

Lemma begin_marker_shape (line name : string) :
  is_new_symbol_mark line = Some name ->
  exists q, line = q ++ "::BEGIN" ++ nl.
Proof.
  unfold is_new_symbol_mark.
  destruct (endswith line ("::BEGIN" ++ nl)) eqn:E; simpl; [|discriminate].
  intros _. now apply endswith_spec in E.
Qed.

Lemma drop_last_begin (q : string) :
  drop_last 6 (q ++ "::BEGIN" ++ nl) = q ++ "::".
Proof.
  unfold drop_last.
  replace (q ++ "::BEGIN" ++ nl) with ((q ++ "::") ++ "BEGIN" ++ nl)
    by (now rewrite append_assoc).
  apply (substring_drop_tail (q ++ "::") ("BEGIN" ++ nl)).
Qed.

Lemma matching_end_shape (q : string) :
  matching_end (q ++ "::BEGIN" ++ nl) = q ++ "::END" ++ nl.
Proof.
  unfold matching_end. rewrite drop_last_begin. now rewrite append_assoc.
Qed.

(** A line that ends in [END] and a line feed does not end in [::BEGIN]. *)
Lemma end_line_not_begin (q : string) :
  endswith (q ++ "::END" ++ nl) ("::BEGIN" ++ nl) = false.
Proof.
  apply endswith_false. intros p H.
  replace (q ++ "::END" ++ nl) with ((q ++ "::") ++ "END" ++ nl) in H
    by (now rewrite append_assoc).
  replace (p ++ "::BEGIN" ++ nl) with ((p ++ "::BE") ++ "GIN" ++ nl) in H
    by (now rewrite append_assoc).
  apply append_inj_length in H; [|reflexivity].
  destruct H as [_ H]. discriminate.
Qed.

Lemma end_line_not_recognized (q : string) :
  is_new_symbol_mark (q ++ "::END" ++ nl) = None.
Proof.
  unfold is_new_symbol_mark. now rewrite end_line_not_begin.
Qed.

Lemma end_line_ends (q : string) :
  endswith (q ++ "::END" ++ nl) ("::END" ++ nl) = true.
Proof. apply endswith_append. Qed.

(** The markers [get_symbol_mark] writes are recognized, under the name the
    two case conversions leave. *)
Lemma current_marker_recognized (name : string) :
  is_new_symbol_mark (mark_begin (get_symbol_mark name))
  = Some (lower (upper name)).
Proof.
  unfold is_new_symbol_mark, get_symbol_mark, mark_begin.
  replace ("// KALAMINE::" ++ upper name ++ "::BEGIN" ++ nl)
    with (("// KALAMINE::" ++ upper name) ++ "::BEGIN" ++ nl)
    by (now rewrite append_assoc).
  rewrite endswith_append. simpl negb. cbv iota.
  rewrite append_assoc, startswith_append.
  do 2 f_equal.
  exact (slice_spec "// KALAMINE::" (upper name) ("::BEGIN" ++ nl)).
Qed.


Lemma opens_shape (m : Variant) (line : string) :
  opens m line = true -> exists q, line = q ++ "::BEGIN" ++ nl.
Proof.
  unfold opens, truthy.
  destruct (is_new_symbol_mark line) as [name|] eqn:E; [|discriminate].
  intros _. eapply begin_marker_shape, E.
Qed.

(* ------------------------------------------------------------------------- *)
(** * The scanning pass *)

Lemma scan_app (m : Variant) (st : scan_state) (l1 l2 : list string) :
  scan m st (l1 ++ l2)%list = scan m (scan m st l1) l2.
Proof. apply fold_left_app. Qed.

Lemma scan_line_opens (m : Variant) (st : scan_state) (line : string) :
  opens m line = true ->
  scan_line m st line =
  {| text := rstrip (text st); modified_text := true; between_marks := true;
     closing_mark := matching_end line |}.
Proof.
  unfold opens, scan_line.
  destruct (truthy (is_new_symbol_mark line)); [|discriminate].
  now intros ->.
Qed.






(* ------------------------------------------------------------------------- *)
(** * Claims on the marker protocol and the scanning pass *)

(** C3 (code at the failing input).  A line that ends in [::BEGIN] but starts
    with neither the current tag nor the legacy tag is still recognized as a
    begin marker, under the legacy name. *)
Theorem foreign_begin_line_recognized_as_legacy :
  is_new_symbol_mark ("// FOO::BEGIN" ++ nl) = Some "lafayette".
Proof. reflexivity. Qed.

(** C1 (counterexample).  Removing [foo] from a file made of one [foo] block
    leaves behind the foreign end marker the block contained: the block is
    not dropped whole. *)
Lemma foreign_end_line_survives_block_removal :
  readlines Sample.foreign_end_file
  = [Sample.foo_begin; Sample.open_line; "// OTHER::END" ++ nl;
     Sample.close_line; matching_end Sample.foo_begin] /\
  opens Sample.remove_foo Sample.foo_begin = true /\
  update_symbols_locale Sample.foreign_end_file Sample.remove_foo
  = "// OTHER::END" ++ nl.
Proof. repeat split. Qed.




(* ------------------------------------------------------------------------- *)
(** * Dictionaries *)

Section DictFacts.
Context {V : Type}.
Implicit Types (d : Dict V) (k : string) (v : V).

Lemma dict_get_set_same d k v : dict_get (dict_set d k v) k = Some v.
Proof.
  induction d as [|[k' v'] d IH]; simpl.
  - now rewrite String.eqb_refl.
  - destruct (k' =? k) eqn:E; simpl.
    + now rewrite String.eqb_refl.
    + now rewrite E.
Qed.

Lemma dict_get_set_other d k k' v :
  k <> k' -> dict_get (dict_set d k v) k' = dict_get d k'.
Proof.
  intros N. induction d as [|[k0 v0] d IH]; simpl.
  - apply String.eqb_neq in N. now rewrite N.
  - destruct (k0 =? k) eqn:E; simpl.
    + apply String.eqb_eq in E. subst k0.
      apply String.eqb_neq in N. now rewrite N.
    + now rewrite IH.
Qed.

Lemma dict_set_same d k v : dict_get d k = Some v -> dict_set d k v = d.
Proof.
  induction d as [|[k0 v0] d IH]; simpl; [discriminate|].
  destruct (k0 =? k) eqn:E.
  - apply String.eqb_eq in E. intros [= ->]. now subst.
  - intros H. now rewrite IH.
Qed.

Lemma has_key_get d k :
  has_key d k = true <-> exists v, dict_get d k = Some v.
Proof.
  unfold has_key, keys. induction d as [|[k0 v0] d IH]; simpl.
  - split; [discriminate | intros [v H]; discriminate].
  - rewrite (String.eqb_sym k k0). destruct (k0 =? k); simpl.
    + split; eauto.
    + exact IH.
Qed.

Lemma has_key_false d k : has_key d k = false <-> dict_get d k = None.
Proof.
  destruct (has_key d k) eqn:E.
  - apply has_key_get in E as [v E]. rewrite E. split; discriminate.
  - split; [|reflexivity]. intros _.
    destruct (dict_get d k) eqn:G; [|reflexivity].
    assert (has_key d k = true) by (apply has_key_get; eauto). congruence.
Qed.

Lemma has_key_set d k k' v :
  has_key (dict_set d k v) k' = (k =? k') || has_key d k'.
Proof.
  destruct (String.eqb_spec k k') as [->|N]; simpl.
  - apply has_key_get. rewrite dict_get_set_same. eauto.
  - destruct (has_key d k') eqn:E.
    + apply has_key_get. rewrite dict_get_set_other by assumption.
      now apply has_key_get.
    + apply has_key_false. rewrite dict_get_set_other by assumption.
      now apply has_key_false.
Qed.

End DictFacts.

Lemma distinct_cons (x : string) (l : list string) :
  distinct (x :: l) = true -> ~ In x l /\ distinct l = true.
Proof.
  cbn [distinct]. intros H. apply andb_true_iff in H as [H1 H2].
  split; [|exact H2]. intros I. apply negb_true_iff in H1.
  assert (existsb (String.eqb x) l = true).
  { apply existsb_exists. exists x. split; [exact I | apply String.eqb_refl]. }
  congruence.
Qed.

Lemma has_key_cons {V} (k0 : string) (v0 : V) (d : Dict V) (k : string) :
  has_key ((k0, v0) :: d) k = (k0 =? k) || has_key d k.
Proof. unfold has_key. cbn. now rewrite (String.eqb_sym k k0). Qed.

Lemma has_key_not_in {V} (d : Dict V) (k : string) :
  ~ In k (keys d) -> has_key d k = false.
Proof.
  intros N. destruct (has_key d k) eqn:E; [|reflexivity].
  unfold has_key in E. apply existsb_exists in E as [x [I E]].
  apply String.eqb_eq in E. subst x. contradiction.
Qed.

Lemma dict_get_in {V} (d : Dict V) (k : string) (v : V) :
  dict_get d k = Some v -> In (k, v) d.
Proof.
  induction d as [|[k0 v0] d IH]; [discriminate|]. cbn [dict_get].
  destruct (String.eqb_spec k0 k) as [->|N].
  - intros [= ->]. now left.
  - intros H. right. auto.
Qed.

(* ------------------------------------------------------------------------- *)
(** * Claims on error handling and on the files a command leaves *)














(** [update_symbols] and [update_rules] make the guarded call. *)
Lemma update_symbols_guards (e : env) (locale : string) (m : Variant)
  (content : string) (d : disk) :
  dict_get (symbols_files d) locale = Some content ->
  update_symbols e [(locale, m)] d
  = (guarded (update_symbols_locale_io e locale m) (symbols_path e locale)
     ;;; ret tt) d.
Proof.
  intros H. unfold update_symbols, update_symbols_entry, for_each, bind,
    get_symbols, guarded.
  cbn [fst snd]. rewrite H. reflexivity.
Qed.

(** [update_rules] makes the guarded call for every shard file that exists. *)
Lemma update_rules_file_guards (e : env) (kb_index : Index)
  (filename : string) (parsed : Tree) (d : disk) :
  dict_get (rules_files d) filename = Some parsed ->
  update_rules_file e kb_index filename d
  = guarded (open_path e Read (rules_path e filename) ;;;
             tree <- lift (update_rules_tree (rules_path e filename) parsed
                             kb_index) ;;
             open_path e Write (rules_path e filename) ;;;
             set_rules filename tree ;;;
             log_write (rules_path e filename))
            (rules_path e filename) d.
Proof.
  intros G. unfold update_rules_file, bind at 1, get_rules. now rewrite G.
Qed.

(** Commands that read the disk and never change it. *)
Lemma reads_only_ret {A} (a : A) : reads_only (ret a).
Proof. intros d. reflexivity. Qed.

Lemma reads_only_raise {A} (ex : exception) : reads_only (@raise A ex).
Proof. intros d. reflexivity. Qed.

Lemma reads_only_bind {A B} (m : M A) (k : A -> M B) :
  reads_only m -> (forall a, reads_only (k a)) -> reads_only (bind m k).
Proof.
  intros Hm Hk d. unfold bind. specialize (Hm d).
  destruct (m d) as [[a|ex|msg] d1]; simpl in *; subst; auto.
  apply Hk.
Qed.

Lemma reads_only_for_each {X} (xs : list X) (body : X -> M unit) :
  (forall x, reads_only (body x)) -> reads_only (for_each xs body).
Proof.
  intros H. induction xs as [|x xs IH]; simpl.
  - apply reads_only_ret.
  - apply reads_only_bind; auto.
Qed.

Lemma reads_only_open_path (e : env) (a : access) (path : string) :
  reads_only (open_path e a path).
Proof.
  unfold open_path. destruct (fault e a path);
    [apply reads_only_raise | apply reads_only_ret].
Qed.

Lemma reads_only_get_rules (filename : string) :
  reads_only (get_rules filename).
Proof. intros d. reflexivity. Qed.

Create HintDb reads_only.
#[local] Hint Resolve reads_only_ret reads_only_raise reads_only_open_path
  reads_only_get_rules : reads_only.

Lemma reads_only_clean_file (e : env) (filename : string) :
  reads_only (XKBManager.clean_file e filename).
Proof.
  unfold XKBManager.clean_file.
  apply reads_only_bind; [auto with reads_only|].
  intros [parsed|]; [|auto with reads_only].
  apply reads_only_bind; auto with reads_only.
Qed.

(** C10.  [clean] ends with the disk it started from, however it ends: no
    file changes and no write is made. *)
Theorem clean_leaves_disk_unchanged (os : faults) (self : XKBManager.t)
  (d : disk) :
  snd (XKBManager.clean os self d) = d.
Proof.
  revert d. change (reads_only (XKBManager.clean os self)).
  unfold XKBManager.clean. apply reads_only_for_each. intros filename.
  apply reads_only_bind; auto using reads_only_clean_file with reads_only.
Qed.

(* ------------------------------------------------------------------------- *)
(** * Claims on the registry tree *)

Lemma count_name_removed (name : string) (vl : list VariantNode) :
  count_name name (filter (fun v => negb (variant_name v =? name)) vl) = 0.
Proof.
  unfold count_name.
  induction vl as [|v vl IH]; simpl; [reflexivity|].
  destruct (String.eqb_spec (variant_name v) name) as [E|N]; simpl.
  - exact IH.
  - destruct (string_dec (variant_name v) name); [contradiction | exact IH].
Qed.

Lemma count_name_app (name : string) (a b : list VariantNode) :
  count_name name (a ++ b) = count_name name a + count_name name b.
Proof. unfold count_name. now rewrite map_app, count_occ_app. Qed.

Lemma remove_rules_variant_named (vl : list VariantNode) (name : string) :
  xml_compatible name = true -> name <> EmptyString ->
  remove_rules_variant vl name
  = Return (filter (fun v => negb (variant_name v =? name)) vl).
Proof.
  intros X N. unfold remove_rules_variant. rewrite X. cbn [negb].
  apply String.eqb_neq in N. now rewrite N.
Qed.

(** C9 (counterexample).  Upserting a variant under the empty name, in a
    list that holds a node without a name, removes nothing: the list then
    holds two nodes under that name. *)
Lemma empty_name_is_not_replaced :
  update_rules_variants
    [SampleDisk.variant EmptyString "Old"]
    [(EmptyString, Some (Sample.layout "fr" EmptyString "New" "xkb"))]
  = Return [SampleDisk.variant EmptyString "Old";
            SampleDisk.variant EmptyString "New"] /\
  count_name EmptyString
             [SampleDisk.variant EmptyString "Old";
              SampleDisk.variant EmptyString "New"] = 2.
Proof. split; reflexivity. Qed.

(** For a name with a control character the query is refused, and the
    upsert raises. *)
Example refused_name_raises :
  update_rules_variants
    [SampleDisk.variant "bepo" "French (Bepo)"]
    [(String "001" "x", Some (Sample.layout "fr" "x" "New" "xkb"))]
  = Raise ValueError.
Proof. reflexivity. Qed.

(** C9 (amended).  Upserting a variant, as [update_rules] does for an entry
    that holds a layout, under a name that is not empty and free of the
    double quote.  When lxml takes the name and the description, the nodes
    with that name are removed, the others keep their order, and the new
    node is appended; otherwise the upsert raises the [ValueError] of lxml.
    In the list so made the name occurs once, in the last node, which
    carries the new description. *)
Theorem upsert_variant_replaces_by_append (variant_list : list VariantNode)
  (name : string) (layout : KeyboardLayout) :
  name <> EmptyString -> xpath_safe name = true ->
  let node := {| variant_type := None; variant_name := name;
                 variant_description := meta_description layout |} in
  let result :=
    (filter (fun v => negb (variant_name v =? name)) variant_list
     ++ [node])%list in
  update_rules_variants variant_list [(name, Some layout)]
  = (if xml_compatible name && xml_compatible (meta_description layout)
     then Return result else Raise ValueError) /\
  count_name name result = 1 /\
  (forall other, last result other = node).
Proof.
  intros N _ node result. split; [|split].
  - cbn [update_rules_variants].
    destruct (xml_compatible name) eqn:X; cbn [andb].
    + rewrite (remove_rules_variant_named _ _ X N).
      cbn [and_then]. unfold add_rules_variant. rewrite X. cbn [andb].
      now destruct (xml_compatible (meta_description layout)).
    + unfold remove_rules_variant. now rewrite X.
  - unfold result. rewrite count_name_app, count_name_removed.
    unfold count_name. simpl.
    destruct (string_dec name name); [reflexivity | contradiction].
  - intros other. apply last_last.
Qed.

Lemma upsert_variant_replaces_by_append_witness :
  update_rules_variants
    [SampleDisk.variant "azerty" "French (AZERTY)";
     SampleDisk.variant "bepo" "French (Bepo)"]
    [("azerty", Some (Sample.layout "fr" "azerty" "French (new)" "xkb"))]
  = Return [SampleDisk.variant "bepo" "French (Bepo)";
            SampleDisk.variant "azerty" "French (new)"].
Proof.
  apply (proj1 (upsert_variant_replaces_by_append
                  [SampleDisk.variant "azerty" "French (AZERTY)";
                   SampleDisk.variant "bepo" "French (Bepo)"]
                  "azerty" (Sample.layout "fr" "azerty" "French (new)" "xkb")
                  ltac:(discriminate) eq_refl)).
Defined.

(* ------------------------------------------------------------------------- *)
(** * Committing an empty index *)

Lemma rules_round_empty (e : env) (filename : string) (d : disk) :
  no_faults e ->
  exists d',
    update_rules_file e [] filename d = (Return tt, d') /\
    rules_files d' = rules_files d /\
    symbols_files d' = symbols_files d /\
    written d' =
    (written d ++ map (rules_path e)
                      (filter (has_key (rules_files d)) [filename]))%list.
Proof.
  intros NF. unfold update_rules_file, bind, get_rules, try_except, open_path,
    lift, set_rules, log_write, ret. cbn [update_rules_tree filter map].
  destruct (dict_get (rules_files d) filename) as [parsed|] eqn:G.
  - rewrite !NF. eexists. split; [reflexivity|]. cbn [rules_files symbols_files
      written]. rewrite (dict_set_same _ _ _ G).
    assert (K : has_key (rules_files d) filename = true)
      by (apply has_key_get; eauto).
    rewrite K. auto.
  - apply has_key_false in G. rewrite G. eexists. split; [reflexivity|].
    simpl. now rewrite app_nil_r.
Qed.

Lemma update_rules_empty (e : env) (d : disk) :
  no_faults e ->
  exists d',
    update_rules e [] d = (Return tt, d') /\
    rules_files d' = rules_files d /\
    symbols_files d' = symbols_files d /\
    written d' = (written d ++ existing_shards e d)%list.
Proof.
  intros NF. unfold update_rules, for_each.
  destruct (rules_round_empty e "base.xml" d NF) as [d1 [E1 [R1 [S1 W1]]]].
  destruct (rules_round_empty e "evdev.xml" d1 NF) as [d2 [E2 [R2 [S2 W2]]]].
  exists d2. unfold bind at 1. rewrite E1. unfold bind at 1. rewrite E2.
  split; [reflexivity|]. split; [congruence|]. split; [congruence|].
  rewrite W2, W1, R1. unfold existing_shards. cbn [filter].
  rewrite <- app_assoc, <- map_app.
  destruct (has_key (rules_files d) "base.xml");
    destruct (has_key (rules_files d) "evdev.xml"); reflexivity.
Qed.

(** C5 (counterexample).  With an empty index and [rules/base.xml] on disk,
    the commit writes that file back although no locale was touched. *)
Lemma empty_commit_rewrites_shard :
  let self := SampleDisk.manager [] in
  XKBManager._index self = [] /\
  written SampleDisk.fr_disk = [] /\
  written (snd (XKBManager.update SampleDisk.no_fault self SampleDisk.fr_disk))
  = ["/usr/share/X11/xkb/rules/base.xml"].
Proof. repeat split. Qed.

(** C5 (amended).  Committing an empty index, when no operation fails,
    leaves every symbols file and every registry tree as it was, writes no
    symbols file, and writes back each shard file that exists. *)
Theorem empty_commit_effect (os : faults) (self : XKBManager.t) (d : disk) :
  no_faults (XKBManager.env_of os self) -> XKBManager._index self = [] ->
  exists d',
    XKBManager.update os self d
    = (Return (XKBManager.with_index self []), d') /\
    symbols_files d' = symbols_files d /\
    rules_files d' = rules_files d /\
    written d'
    = (written d ++ existing_shards (XKBManager.env_of os self) d)%list.
Proof.
  intros NF E. unfold XKBManager.update. rewrite E.
  destruct (update_rules_empty _ d NF) as [d1 [E1 [R1 [S1 W1]]]].
  exists d1. unfold bind. rewrite E1. cbn. auto.
Qed.

Lemma empty_commit_effect_witness :
  no_faults (XKBManager.env_of SampleDisk.no_fault (SampleDisk.manager [])) /\
  XKBManager._index (SampleDisk.manager []) = [] /\
  exists d',
    XKBManager.update SampleDisk.no_fault (SampleDisk.manager [])
      SampleDisk.fr_disk
    = (Return (XKBManager.with_index (SampleDisk.manager []) []), d') /\
    symbols_files d' = symbols_files SampleDisk.fr_disk /\
    rules_files d' = rules_files SampleDisk.fr_disk /\
    written d' = (written SampleDisk.fr_disk
                  ++ ["/usr/share/X11/xkb/rules/base.xml"])%list.
Proof.
  split; [intros a p; reflexivity|]. split; [reflexivity|].
  apply (empty_commit_effect SampleDisk.no_fault (SampleDisk.manager [])
           SampleDisk.fr_disk (fun a p => eq_refl) eq_refl).
Defined.

(* ------------------------------------------------------------------------- *)
(** * Listing *)

Lemma nested_set_get {X} (L : Dict (Dict X)) (k1 k2 : string) (x : X) :
  exists inner,
    nested_set L k1 k2 x = dict_set (if has_key L k1 then L else dict_set L k1 [])
                                    k1 (dict_set inner k2 x) /\
    (forall b, has_key inner b = in_nested L k1 b).
Proof.
  unfold nested_set, in_nested. destruct (has_key L k1) eqn:K.
  - apply has_key_get in K as [inner G]. rewrite G. exists inner. auto.
  - rewrite dict_get_set_same. exists []. split; [reflexivity|].
    apply has_key_false in K. now rewrite K.
Qed.

Lemma in_nested_set {X} (L : Dict (Dict X)) (k1 k2 : string) (x : X)
  (a b : string) :
  in_nested (nested_set L k1 k2 x) a b
  = in_nested L a b || ((k1 =? a) && (k2 =? b)).
Proof.
  destruct (nested_set_get L k1 k2 x) as [inner [-> H]].
  unfold in_nested at 1.
  destruct (String.eqb_spec k1 a) as [->|N].
  - rewrite dict_get_set_same, has_key_set, H. simpl. apply orb_comm.
  - rewrite dict_get_set_other by assumption. rewrite orb_false_r.
    unfold in_nested. destruct (has_key L k1); [reflexivity|].
    now rewrite dict_get_set_other.
Qed.


(** *** [list_rules] *)

Lemma list_rules_variant_in (lm vm : string) (acc : Listing)
  (lv : string * VariantNode) (l v : string) :
  in_nested (list_rules_variant lm vm acc lv) l v
  = in_nested acc l v
    || ((fst lv =? l) && (variant_name (snd lv) =? v)
        && (mask_accepts lm l && mask_accepts vm v)).
Proof.
  unfold list_rules_variant.
  destruct (String.eqb_spec (fst lv) l) as [El|Nl];
    destruct (String.eqb_spec (variant_name (snd lv)) v) as [Ev|Nv];
    rewrite ?El, ?Ev;
    destruct (mask_accepts lm _ && mask_accepts vm _) eqn:A;
    rewrite ?in_nested_set; simpl; rewrite ?orb_false_r; try reflexivity.
  - subst. now rewrite !String.eqb_refl.
  - subst. apply String.eqb_neq in Nv. rewrite Nv. now rewrite andb_false_r, orb_false_r.
  - apply String.eqb_neq in Nl. rewrite Nl. now rewrite orb_false_r.
  - apply String.eqb_neq in Nl. rewrite Nl. now rewrite orb_false_r.
Qed.

Lemma list_rules_fold_in (lm vm : string) (vs : list (string * VariantNode))
  (acc : Listing) (l v : string) :
  in_nested (fold_left (list_rules_variant lm vm) vs acc) l v
  = in_nested acc l v
    || (existsb (fun lv => (fst lv =? l) && (variant_name (snd lv) =? v)) vs
        && (mask_accepts lm l && mask_accepts vm v)).
Proof.
  revert acc. induction vs as [|lv vs IH]; intros acc; simpl.
  - now rewrite orb_false_r.
  - rewrite IH, list_rules_variant_in.
    destruct (in_nested acc l v); simpl; [reflexivity|].
    destruct ((fst lv =? l) && (variant_name (snd lv) =? v)); simpl;
      [|reflexivity].
    destruct (mask_accepts lm l && mask_accepts vm v); simpl;
      [reflexivity | now rewrite andb_false_r].
Qed.

(** The pairs [list_rules] returns are the declared pairs the mask accepts. *)
Lemma list_rules_spec (d : disk) (mask l v : string) :
  in_nested (list_rules d mask) l v = declared d l v && mask_matches mask l v.
Proof.
  unfold list_rules, declared, mask_matches.
  destruct (parse_mask mask) as [lm vm]. cbn [fst snd fold_left existsb].
  destruct (dict_get (rules_files d) "base.xml") as [t1|];
    destruct (dict_get (rules_files d) "evdev.xml") as [t2|];
    rewrite ?list_rules_fold_in; cbn [in_nested dict_get];
    rewrite ?orb_false_r; simpl;
    repeat match goal with
           | |- context [existsb ?f ?x] => destruct (existsb f x)
           end; simpl;
    destruct (mask_accepts lm l && mask_accepts vm v); reflexivity.
Qed.

Lemma has_char_append (c : ascii) (a b : string) :
  has_char c (a ++ b) = has_char c a || has_char c b.
Proof.
  induction a as [|x a IH]; simpl; [reflexivity|].
  now rewrite IH, orb_assoc.
Qed.

Lemma split_slash_plain (s : string) :
  has_char "/" s = false -> split_slash s = [s].
Proof.
  induction s as [|c s IH]; simpl; [reflexivity|].
  intros H. apply orb_false_iff in H as [Hc Hs].
  rewrite Hc, (IH Hs). reflexivity.
Qed.

Lemma split_slash_pair (a b : string) :
  has_char "/" a = false -> has_char "/" b = false ->
  split_slash (a ++ "/" ++ b) = [a; b].
Proof.
  intros Ha Hb. change ("/" ++ b) with (String "/" b).
  induction a as [|c a IH]; simpl.
  - now rewrite (split_slash_plain b Hb).
  - simpl in Ha. apply orb_false_iff in Ha as [Hc Ha].
    rewrite Hc, (IH Ha). reflexivity.
Qed.

Lemma parse_mask_pair (a b : string) :
  has_char "/" a = false -> has_char "/" b = false ->
  parse_mask (a ++ "/" ++ b) = (a, b).
Proof.
  intros Ha Hb. unfold parse_mask. rewrite (split_slash_pair a b Ha Hb).
  assert (H : has_char "/" (a ++ "/" ++ b) = true).
  { rewrite has_char_append. simpl. now rewrite orb_true_r. }
  assert (N1 : a ++ "/" ++ b <> EmptyString).
  { intros E. rewrite E in H. discriminate H. }
  assert (N2 : a ++ "/" ++ b <> "*").
  { intros E. rewrite E in H. discriminate H. }
  apply String.eqb_neq in N1, N2. now rewrite N1, N2.
Qed.

Lemma parse_mask_plain (a : string) :
  has_char "/" a = false -> a <> EmptyString -> a <> "*" ->
  parse_mask a = (a, "*").
Proof.
  intros Ha N1 N2. unfold parse_mask. rewrite (split_slash_plain a Ha).
  apply String.eqb_neq in N1, N2. now rewrite N1, N2.
Qed.

Lemma mask_accepts_exact (m x : string) :
  m <> "*" -> mask_accepts m x = (m =? x).
Proof.
  intros N. unfold mask_accepts. apply String.eqb_neq in N. now rewrite N.
Qed.





(** *** [list_symbols] *)








(* ------------------------------------------------------------------------- *)
(** * The symbols file after a commit *)

Lemma readlines_nil (s : string) : readlines s = [] -> s = EmptyString.
Proof.
  destruct s as [|c s]; [reflexivity|]. simpl.
  destruct (Ascii.eqb c "010"); [discriminate|].
  destruct (readlines s); discriminate.
Qed.

Lemma readlines_nl (s : string) : readlines (nl ++ s) = nl :: readlines s.
Proof. reflexivity. Qed.

(** Text that ends with a line feed splits into lines on its own. *)
Lemma readlines_app (p c : string) :
  readlines ((p ++ nl) ++ c) = (readlines (p ++ nl) ++ readlines c)%list.
Proof.
  induction p as [|x p IH].
  - reflexivity.
  - cbn [append readlines]. destruct (Ascii.eqb x "010").
    + now rewrite IH.
    + rewrite IH. destruct (readlines (p ++ nl)) as [|l0 ls] eqn:E.
      * apply readlines_nil in E. destruct p; discriminate.
      * reflexivity.
Qed.

Lemma readlines_single (q : string) :
  has_char "010" q = false -> readlines (q ++ nl) = [q ++ nl].
Proof.
  induction q as [|x q IH]; intros H; [reflexivity|].
  cbn [has_char] in H. apply orb_false_iff in H as [Hx Hq].
  cbn [append readlines]. rewrite Hx, (IH Hq). reflexivity.
Qed.

Lemma scan_line_outside (m : Variant) (st : scan_state) (line : string) :
  between_marks st = false -> opens m line = false ->
  scan_line m st line = add_text st line.
Proof.
  unfold opens, scan_line. intros B O.
  destruct (truthy (is_new_symbol_mark line)).
  - now rewrite O.
  - rewrite B. cbn [andb negb].
    destruct (endswith line ("::END" ++ nl)); reflexivity.
Qed.

(** Outside a block, lines that open none are copied. *)
Lemma scan_outside (m : Variant) (lines : list string) :
  forallb (fun line => negb (opens m line)) lines = true ->
  forall st, between_marks st = false ->
  scan m st lines =
  {| text := text st ++ join lines; modified_text := modified_text st;
     between_marks := false; closing_mark := closing_mark st |}.
Proof.
  induction lines as [|line lines IH]; intros H st B.
  - cbn. rewrite append_nil_r. destruct st. simpl in B. now subst.
  - cbn [forallb] in H. apply andb_true_iff in H as [Hl Hs].
    apply negb_true_iff in Hl.
    cbn [scan fold_left]. rewrite (scan_line_outside m st line B Hl).
    fold (scan m (add_text st line) lines).
    rewrite (IH Hs (add_text st line) B). cbn [add_text text modified_text
      closing_mark]. f_equal. rewrite append_assoc. f_equal.
    unfold join. destruct lines; cbn; [now rewrite append_nil_r | reflexivity].
Qed.

Lemma join_cons (l : string) (ls : list string) : join (l :: ls) = l ++ join ls.
Proof.
  unfold join. destruct ls; cbn; [now rewrite append_nil_r | reflexivity].
Qed.

(** Inside a block, plain lines are dropped. *)
Lemma scan_plain_inside (m : Variant) (lines : list string) :
  forallb plain_line lines = true ->
  forall st, between_marks st = true -> scan m st lines = st.
Proof.
  induction lines as [|line lines IH]; intros H st B; [reflexivity|].
  cbn [forallb] in H. apply andb_true_iff in H as [Hl Hs].
  unfold plain_line in Hl. apply andb_true_iff in Hl as [H1 H2].
  apply negb_true_iff in H1, H2.
  cbn [scan fold_left].
  assert (E : scan_line m st line = st).
  { unfold scan_line, is_new_symbol_mark. rewrite H1, H2, B. reflexivity. }
  rewrite E. now apply IH.
Qed.

Lemma scan_line_matching_end (m : Variant) (st : scan_state) (q : string) :
  between_marks st = true -> closing_mark st = q ++ "::END" ++ nl ->
  scan_line m st (q ++ "::END" ++ nl) =
  {| text := text st; modified_text := modified_text st;
     between_marks := false; closing_mark := EmptyString |}.
Proof.
  intros B C. unfold scan_line.
  rewrite end_line_not_recognized. cbn [truthy].
  now rewrite end_line_ends, B, C, startswith_refl.
Qed.

Lemma mark_begin_line (name : string) :
  mark_begin (get_symbol_mark name)
  = ("// KALAMINE::" ++ upper name ++ "::BEGIN") ++ nl.
Proof. cbn [mark_begin get_symbol_mark]. now rewrite !append_assoc. Qed.

Lemma mark_end_line (name : string) :
  mark_end (get_symbol_mark name)
  = ("// KALAMINE::" ++ upper name ++ "::END") ++ nl.
Proof. cbn [mark_end get_symbol_mark]. now rewrite !append_assoc. Qed.

Lemma mark_begin_shape (name : string) :
  mark_begin (get_symbol_mark name)
  = ("// KALAMINE::" ++ upper name) ++ "::BEGIN" ++ nl.
Proof. cbn [mark_begin get_symbol_mark]. now rewrite !append_assoc. Qed.

Lemma mark_end_shape (name : string) :
  mark_end (get_symbol_mark name)
  = ("// KALAMINE::" ++ upper name) ++ "::END" ++ nl.
Proof. cbn [mark_end get_symbol_mark]. now rewrite !append_assoc. Qed.

Lemma mark_end_matches (name : string) :
  matching_end (mark_begin (get_symbol_mark name))
  = mark_end (get_symbol_mark name).
Proof. now rewrite mark_begin_shape, matching_end_shape, mark_end_shape. Qed.

Lemma stable_name_spec (name : string) :
  stable_name name = true ->
  name <> EmptyString /\ lower (upper name) = name /\
  has_char "010" (upper name) = false.
Proof.
  unfold stable_name. intros H.
  apply andb_true_iff in H as [H H3]. apply andb_true_iff in H as [H1 H2].
  apply negb_true_iff in H1, H3. apply String.eqb_neq in H1.
  apply String.eqb_eq in H2. auto.
Qed.


Lemma opens_current_marker (m : Variant) (name : string) :
  stable_name name = true -> has_key m name = true ->
  opens m (mark_begin (get_symbol_mark name)) = true.
Proof.
  intros S K. apply stable_name_spec in S as [N [E _]].
  unfold opens. rewrite current_marker_recognized, E.
  destruct name; [contradiction | exact K].
Qed.

Lemma mark_lines (name : string) (rest : string) :
  has_char "010" (upper name) = false ->
  readlines (mark_begin (get_symbol_mark name) ++ rest)
  = mark_begin (get_symbol_mark name) :: readlines rest /\
  readlines (mark_end (get_symbol_mark name) ++ rest)
  = mark_end (get_symbol_mark name) :: readlines rest.
Proof.
  intros H. rewrite mark_begin_line, mark_end_line, !readlines_app.
  rewrite !readlines_single; [auto| |];
    rewrite !has_char_append, H; reflexivity.
Qed.

Lemma readlines_new_block (entry : string * option KeyboardLayout)
  (rest : string) :
  stable_name (fst entry) = true ->
  readlines (new_block (fst entry) (snd entry) ++ rest)
  = (block_lines entry ++ readlines rest)%list.
Proof.
  intros S. apply stable_name_spec in S as [_ [_ H]].
  unfold new_block, block_lines. destruct (snd entry) as [layout|];
    [|reflexivity].
  rewrite !append_assoc, readlines_nl.
  rewrite (proj1 (mark_lines (fst entry) _ H)).
  unfold body_text at 1. rewrite readlines_app. fold (body_text layout).
  rewrite (proj2 (mark_lines (fst entry) _ H)).
  cbn [app]. now rewrite <- app_assoc.
Qed.

Lemma well_formed_variant_entry (m : Variant)
  (entry : string * option KeyboardLayout) :
  well_formed_variant m = true -> In entry m ->
  stable_name (fst entry) = true /\
  forall layout, snd entry = Some layout ->
                 forallb plain_line (readlines (body_text layout)) = true.
Proof.
  unfold well_formed_variant. intros W I.
  rewrite forallb_forall in W. specialize (W entry I).
  apply andb_true_iff in W as [S B]. apply andb_true_iff in S as [S _].
  split; [exact S|].
  intros layout E. rewrite E in B.
  now apply andb_true_iff in B as [B _].
Qed.

Lemma readlines_new_blocks (m entries : Variant) :
  well_formed_variant m = true -> incl entries m ->
  readlines (new_blocks entries) = flat_map block_lines entries.
Proof.
  intros W. unfold new_blocks.
  induction entries as [|entry entries IH]; intros I; [reflexivity|].
  cbn [map flat_map]. rewrite join_cons.
  destruct (well_formed_variant_entry m entry W (I entry (or_introl eq_refl)))
    as [S _].
  rewrite (readlines_new_block entry _ S). f_equal.
  apply IH. intros x Hx. apply I. now right.
Qed.





Lemma normal_base_spec (m : Variant) (b : string) :
  normal_base m b = true ->
  b = rstrip b ++ nl /\
  forallb (fun line => negb (opens m line)) (readlines b) = true.
Proof.
  unfold normal_base. intros H. apply andb_true_iff in H as [H1 H2].
  apply String.eqb_eq in H1. auto.
Qed.



(* ------------------------------------------------------------------------- *)
(** * Dropping and replacing a block *)

(** From any state, a begin marker naming a key of the mapping, plain lines
    and the matching end marker leave only the text read before, trimmed. *)
Lemma scan_block_dropped (m : Variant) (st : scan_state) (opener : string)
  (body : list string) :
  opens m opener = true -> forallb plain_line body = true ->
  scan m st (opener :: body ++ [matching_end opener]) =
  {| text := rstrip (text st); modified_text := true;
     between_marks := false; closing_mark := EmptyString |}.
Proof.
  intros O P. cbn [scan fold_left]. rewrite (scan_line_opens m st opener O).
  fold (scan m {| text := rstrip (text st); modified_text := true;
                  between_marks := true;
                  closing_mark := matching_end opener |}
          (body ++ [matching_end opener])).
  rewrite scan_app, (scan_plain_inside m body P) by reflexivity.
  destruct (opens_shape m opener O) as [q ->].
  cbn [scan fold_left]. rewrite matching_end_shape.
  now rewrite scan_line_matching_end.
Qed.

Lemma plain_line_not_opens (m : Variant) (l : string) :
  plain_line l = true -> opens m l = false.
Proof.
  unfold plain_line, opens, is_new_symbol_mark. intros H.
  apply andb_true_iff in H as [H _]. now rewrite H.
Qed.

Lemma forallb_plain_not_opens (m : Variant) (ls : list string) :
  forallb plain_line ls = true ->
  forallb (fun line => negb (opens m line)) ls = true.
Proof.
  intros H. apply forallb_forall. intros l I.
  rewrite forallb_forall in H. now rewrite (plain_line_not_opens m l (H l I)).
Qed.

Lemma end_line_not_opens (m : Variant) (q : string) :
  opens m (q ++ "::END" ++ nl) = false.
Proof. unfold opens. now rewrite end_line_not_recognized. Qed.

(** *** Stretches of a file *)

Lemma join_app (l1 l2 : list string) : join (l1 ++ l2) = join l1 ++ join l2.
Proof.
  induction l1 as [|x l1 IH]; [reflexivity|].
  cbn [app]. now rewrite !join_cons, IH, append_assoc.
Qed.

(** The scanning pass over a file cut into stretches keeps the lines
    outside the blocks, trimmed where a block starts. *)
Lemma scan_segments (m : Variant) (segs : list segment) :
  forallb (segment_ok m) segs = true ->
  forall st, between_marks st = false -> closing_mark st = EmptyString ->
  scan m st (flat_map segment_lines segs)
  = {| text := kept_text segs (text st);
       modified_text := modified_text st || existsb is_dropped segs;
       between_marks := false; closing_mark := EmptyString |}.
Proof.
  induction segs as [|[lines|opener body] segs IH]; intros H st B C.
  - cbn. rewrite orb_false_r. destruct st. cbn in *. now subst.
  - cbn [forallb segment_ok] in H. apply andb_true_iff in H as [O H].
    cbn [flat_map segment_lines]. rewrite scan_app.
    rewrite (scan_outside m lines O st B).
    rewrite (IH H) by (cbn; auto). cbn [text modified_text kept_text existsb
      is_dropped orb]. reflexivity.
  - cbn [forallb segment_ok] in H. apply andb_true_iff in H as [O H].
    apply andb_true_iff in O as [O P].
    cbn [flat_map segment_lines]. rewrite scan_app.
    rewrite (scan_block_dropped m st opener body O P).
    rewrite (IH H) by reflexivity. cbn [text modified_text kept_text existsb
      is_dropped orb]. now rewrite orb_true_r.
Qed.

(** *** Files made of a base and of blocks *)

Lemma rstrip_app_visible (a b : string) :
  rstrip b <> EmptyString -> rstrip (a ++ b) = a ++ rstrip b.
Proof.
  intros H. induction a as [|c a IH]; [reflexivity|].
  cbn [append rstrip]. rewrite IH.
  destruct (a ++ rstrip b) eqn:E; [|reflexivity].
  destruct a; cbn in E; [contradiction | discriminate].
Qed.

Lemma rstrip_end_line (a q : string) :
  rstrip (a ++ q ++ "::END" ++ nl) ++ nl = a ++ q ++ "::END" ++ nl.
Proof.
  replace (a ++ q ++ "::END" ++ nl) with (((a ++ q) ++ "::END") ++ nl)
    by (now rewrite !append_assoc).
  rewrite rstrip_append_nl, rstrip_app_visible by discriminate.
  reflexivity.
Qed.

Lemma well_formed_block_spec (blk : Block) :
  well_formed_block blk = true ->
  stable_name (fst blk) = true /\
  forallb plain_line (readlines (snd blk)) = true /\
  exists p, snd blk = p ++ nl.
Proof.
  unfold well_formed_block. intros H.
  apply andb_true_iff in H as [H _]. apply andb_true_iff in H as [H E].
  apply andb_true_iff in H as [H P]. apply andb_true_iff in H as [S _].
  split; [exact S|]. split; [exact P|]. now apply endswith_spec.
Qed.

Lemma readlines_block_text (blk : Block) (rest : string) :
  well_formed_block blk = true ->
  readlines (block_text blk ++ rest)
  = (block_text_lines blk ++ readlines rest)%list.
Proof.
  intros W. destruct (well_formed_block_spec blk W) as [S [_ [p Ep]]].
  apply stable_name_spec in S as [_ [_ H]].
  unfold block_text, block_text_lines. rewrite !append_assoc, readlines_nl.
  rewrite (proj1 (mark_lines (fst blk) _ H)).
  rewrite Ep at 1. rewrite readlines_app. rewrite <- Ep.
  rewrite (proj2 (mark_lines (fst blk) _ H)).
  cbn [app]. now rewrite <- app_assoc.
Qed.

Lemma readlines_blocks_text (blocks : list Block) :
  forallb well_formed_block blocks = true ->
  readlines (blocks_text blocks) = flat_map block_text_lines blocks.
Proof.
  unfold blocks_text. induction blocks as [|blk blocks IH]; intros W;
    [reflexivity|].
  cbn [forallb] in W. apply andb_true_iff in W as [W Ws].
  cbn [map flat_map]. rewrite join_cons, (readlines_block_text blk _ W).
  now rewrite (IH Ws).
Qed.

Lemma join_block_text_lines (blk : Block) :
  join (block_text_lines blk) = block_text blk.
Proof.
  unfold block_text_lines, block_text.
  rewrite !join_cons, join_app, join_readlines, join_cons. cbn [join].
  unfold join. cbn [String.concat]. now rewrite append_nil_r.
Qed.

Lemma unkeyed_marker_not_opens (m : Variant) (name : string) :
  stable_name name = true -> has_key m name = false ->
  opens m (mark_begin (get_symbol_mark name)) = false.
Proof.
  intros S K. apply stable_name_spec in S as [N [L _]].
  unfold opens. rewrite current_marker_recognized, L.
  destruct name; [now elim N | exact K].
Qed.

(** The scanning pass over one block: a block the mapping names goes with
    the blank line before it, another one is kept. *)
Lemma scan_block_text (m : Variant) (blk : Block) (st : scan_state) :
  well_formed_block blk = true -> between_marks st = false ->
  closing_mark st = EmptyString ->
  scan m st (block_text_lines blk)
  = {| text := if has_key m (fst blk) then rstrip (text st)
               else text st ++ block_text blk;
       modified_text := modified_text st || has_key m (fst blk);
       between_marks := false; closing_mark := EmptyString |}.
Proof.
  intros W B C. destruct (well_formed_block_spec blk W) as [S [P _]].
  destruct (has_key m (fst blk)) eqn:K.
  - unfold block_text_lines.
    change (nl :: mark_begin (get_symbol_mark (fst blk))
               :: (readlines (snd blk)
                   ++ [mark_end (get_symbol_mark (fst blk))])%list)
      with ([nl] ++ (mark_begin (get_symbol_mark (fst blk))
                     :: (readlines (snd blk)
                         ++ [mark_end (get_symbol_mark (fst blk))])))%list.
    rewrite scan_app. rewrite <- mark_end_matches.
    rewrite (scan_block_dropped m _ _ _ (opens_current_marker m _ S K) P).
    cbn [scan fold_left]. rewrite scan_line_outside by (auto; reflexivity).
    cbn [text add_text]. rewrite rstrip_append_nl, orb_true_r. reflexivity.
  - rewrite scan_outside; [| |exact B].
    + rewrite join_block_text_lines, orb_false_r, C. reflexivity.
    + unfold block_text_lines. cbn [forallb].
      rewrite (unkeyed_marker_not_opens m _ S K).
      rewrite forallb_app, (forallb_plain_not_opens m _ P).
      cbn [forallb]. rewrite mark_end_shape, end_line_not_opens. reflexivity.
Qed.

Lemma scan_blocks (m : Variant) (blocks : list Block) :
  forallb well_formed_block blocks = true ->
  forall st, between_marks st = false -> closing_mark st = EmptyString ->
  scan m st (flat_map block_text_lines blocks)
  = {| text := blocks_kept_text m blocks (text st);
       modified_text :=
         modified_text st || existsb (fun blk => has_key m (fst blk)) blocks;
       between_marks := false; closing_mark := EmptyString |}.
Proof.
  induction blocks as [|blk blocks IH]; intros W st B C.
  - cbn. rewrite orb_false_r. destruct st. cbn in *. now subst.
  - cbn [forallb] in W. apply andb_true_iff in W as [W Ws].
    cbn [flat_map]. rewrite scan_app, (scan_block_text m blk st W B C).
    rewrite (IH Ws) by reflexivity.
    cbn [text modified_text blocks_kept_text existsb].
    rewrite orb_assoc. now destruct (has_key m (fst blk)).
Qed.

Lemma marker_count_app (name p c : string) :
  marker_count name ((p ++ nl) ++ c)
  = marker_count name (p ++ nl) + marker_count name c.
Proof.
  unfold marker_count. now rewrite readlines_app, filter_app, length_app.
Qed.

Lemma plain_line_not_marker (l : string) :
  plain_line l = true -> is_new_symbol_mark l = None.
Proof.
  unfold plain_line, is_new_symbol_mark. intros H.
  apply andb_true_iff in H as [H _]. now rewrite H.
Qed.

Lemma plain_lines_count (name : string) (ls : list string) :
  forallb plain_line ls = true ->
  List.length (filter (names_marker name) ls) = 0.
Proof.
  induction ls as [|l ls IH]; intros H; [reflexivity|].
  cbn [forallb] in H. apply andb_true_iff in H as [P H].
  cbn [filter]. unfold names_marker at 1.
  rewrite (plain_line_not_marker l P). now apply IH.
Qed.

(** A block counts for its own name, once. *)
Lemma block_lines_count (name k : string) (body : list string) :
  stable_name k = true -> forallb plain_line body = true ->
  List.length
    (filter (names_marker name)
            (nl :: mark_begin (get_symbol_mark k)
                :: (body ++ [mark_end (get_symbol_mark k)])%list))
  = if k =? name then 1 else 0.
Proof.
  intros S P. apply stable_name_spec in S as [_ [L _]].
  assert (E : names_marker name (mark_end (get_symbol_mark k)) = false).
  { unfold names_marker. now rewrite mark_end_shape, end_line_not_recognized. }
  assert (B : names_marker name (mark_begin (get_symbol_mark k))
              = (k =? name)).
  { unfold names_marker. now rewrite current_marker_recognized, L. }
  cbn [filter]. change (names_marker name nl) with false. cbv iota.
  rewrite B, filter_app. cbn [filter]. rewrite E.
  destruct (k =? name); cbn [List.length]; rewrite length_app,
    (plain_lines_count name body P); reflexivity.
Qed.

Lemma non_opening_count (m : Variant) (name : string) (ls : list string) :
  forallb (fun line => negb (opens m line)) ls = true ->
  has_key m name = true -> name <> EmptyString ->
  List.length (filter (names_marker name) ls) = 0.
Proof.
  intros H K N. induction ls as [|l ls IH]; [reflexivity|].
  cbn [forallb] in H. apply andb_true_iff in H as [O H].
  cbn [filter]. destruct (names_marker name l) eqn:E; [|now apply IH].
  unfold names_marker in E. unfold opens in O.
  destruct (is_new_symbol_mark l) as [n|]; [|discriminate].
  apply String.eqb_eq in E. subst n.
  destruct name; [now elim N|]. cbn [truthy] in O.
  rewrite K in O. discriminate.
Qed.

Lemma settled_text_base (m : Variant) (b : string) :
  normal_base m b = true -> settled_text m b.
Proof.
  intros N. apply normal_base_spec in N as [E O].
  split; [now left|]. now rewrite <- E.
Qed.

Lemma settled_text_normal (m : Variant) (t : string) :
  settled_text m t -> normal_base m (rstrip t ++ nl) = true.
Proof.
  intros [_ O]. unfold normal_base.
  rewrite rstrip_append_nl, rstrip_idempotent, String.eqb_refl. exact O.
Qed.

Lemma block_text_end (blk : Block) (t : string) :
  rstrip (t ++ block_text blk) ++ nl = t ++ block_text blk.
Proof.
  unfold block_text. rewrite mark_end_shape.
  replace (t ++ nl ++ mark_begin (get_symbol_mark (fst blk)) ++ snd blk
             ++ ("// KALAMINE::" ++ upper (fst blk)) ++ "::END" ++ nl)
    with ((t ++ nl ++ mark_begin (get_symbol_mark (fst blk)) ++ snd blk)
            ++ ("// KALAMINE::" ++ upper (fst blk)) ++ "::END" ++ nl)
    by (now rewrite !append_assoc).
  apply rstrip_end_line.
Qed.

(** The lines of the text kept, once the text kept before a block that
    stays has its last line ended. *)
Lemma readlines_kept_block (m : Variant) (blk : Block) (t : string) :
  well_formed_block blk = true -> settled_text m t ->
  exists lead,
    readlines (t ++ block_text blk)
    = (readlines (rstrip t ++ nl) ++ lead
       ++ mark_begin (get_symbol_mark (fst blk))
          :: (readlines (snd blk)
              ++ [mark_end (get_symbol_mark (fst blk))]))%list /\
    (lead = [nl] \/ lead = []).
Proof.
  intros W [[E|E] _].
  - exists [nl]. split; [|now left].
    rewrite E at 1. rewrite readlines_app.
    rewrite <- (append_nil_r (block_text blk)).
    rewrite (readlines_block_text blk EmptyString W).
    unfold block_text_lines. cbn [readlines].
    now rewrite app_nil_r.
  - exists []. split; [|now right].
    unfold block_text. rewrite <- append_assoc. rewrite E at 1.
    rewrite readlines_app. f_equal. cbn [app].
    destruct (well_formed_block_spec blk W) as [S [_ [p Ep]]].
    apply stable_name_spec in S as [_ [_ H]].
    rewrite (proj1 (mark_lines (fst blk) _ H)).
    rewrite Ep at 1. rewrite readlines_app. rewrite <- Ep.
    pose proof (proj2 (mark_lines (fst blk) EmptyString H)) as Q.
    rewrite append_nil_r in Q. rewrite Q. reflexivity.
Qed.

(** What the scanning pass keeps of the blocks: the text stays settled; no
    block gone, it is the text as it was; and the markers of the names the
    mapping does not hold are all there. *)
Lemma blocks_kept_text_settled (m : Variant) (blocks : list Block) :
  forallb well_formed_block blocks = true ->
  forall t,
    settled_text m t ->
    settled_text m (blocks_kept_text m blocks t) /\
    (existsb (fun blk => has_key m (fst blk)) blocks = false ->
     t = rstrip t ++ nl ->
     rstrip (blocks_kept_text m blocks t) ++ nl = t ++ blocks_text blocks) /\
    (forall name,
       has_key m name = false ->
       marker_count name (rstrip (blocks_kept_text m blocks t) ++ nl)
       = marker_count name (rstrip t ++ nl)
         + List.length (filter (names_marker name)
                               (flat_map block_text_lines blocks))).
Proof.
  induction blocks as [|blk blocks IH]; intros W t J.
  - cbn [blocks_kept_text existsb flat_map filter List.length].
    split; [exact J|]. split.
    + intros _ E. unfold blocks_text. cbn [map]. unfold join.
      cbn [String.concat]. now rewrite append_nil_r, <- E.
    + intros name _. now rewrite Nat.add_0_r.
  - cbn [forallb] in W. apply andb_true_iff in W as [W Ws].
    destruct (well_formed_block_spec blk W) as [S [P _]].
    cbn [blocks_kept_text existsb flat_map].
    destruct (has_key m (fst blk)) eqn:K.
    + assert (J' : settled_text m (rstrip t)).
      { destruct J as [_ O]. split; [right; now rewrite rstrip_idempotent|].
        now rewrite rstrip_idempotent. }
      destruct (IH Ws (rstrip t) J') as [J1 [_ C1]].
      split; [exact J1|]. split; [discriminate|].
      intros name Kn. rewrite (C1 name Kn), rstrip_idempotent.
      rewrite filter_app, length_app. unfold block_text_lines.
      rewrite (block_lines_count name (fst blk) _ S P).
      destruct (String.eqb_spec (fst blk) name) as [E|_]; [|reflexivity].
      rewrite E in K. congruence.
    + assert (J' : settled_text m (t ++ block_text blk)).
      { split; [left; symmetry; apply block_text_end|].
        rewrite block_text_end.
        destruct (readlines_kept_block m blk t W J) as [lead [R L]].
        rewrite R. destruct J as [_ O].
        rewrite !forallb_app, O. cbn [forallb andb].
        rewrite (unkeyed_marker_not_opens m _ S K).
        rewrite forallb_app, (forallb_plain_not_opens m _ P).
        cbn [forallb]. rewrite mark_end_shape, end_line_not_opens.
        destruct L as [-> | ->]; reflexivity. }
      destruct (IH Ws _ J') as [J1 [E1 C1]].
      split; [exact J1|]. split.
      * intros X E. cbn [orb] in X. rewrite (E1 X).
        -- unfold blocks_text. cbn [map]. now rewrite join_cons, append_assoc.
        -- symmetry. apply block_text_end.
      * intros name Kn. rewrite (C1 name Kn), block_text_end.
        unfold marker_count at 1.
        destruct (readlines_kept_block m blk t W J) as [lead [R L]].
        rewrite R, !filter_app, !length_app. unfold marker_count.
        unfold block_text_lines.
        destruct L as [-> | ->]; cbn [filter List.length app];
          change (names_marker name nl) with false; cbv iota;
          cbn [List.length]; lia.
Qed.

(** A commit on a ready file: the blocks of the mapping go, the others
    stay, and the new blocks come after a normal base. *)
Lemma update_symbols_locale_blocks (m : Variant) (b : string)
  (blocks : list Block) :
  normal_base m b = true -> forallb well_formed_block blocks = true ->
  exists X,
    normal_base m X = true /\
    update_symbols_locale (b ++ blocks_text blocks) m = X ++ new_blocks m /\
    modified_text (scan m scan_init (readlines (b ++ blocks_text blocks)))
    = existsb (fun blk => has_key m (fst blk)) blocks /\
    (existsb (fun blk => has_key m (fst blk)) blocks = false ->
     X = b ++ blocks_text blocks) /\
    (forall name,
       has_key m name = false ->
       marker_count name X = marker_count name (b ++ blocks_text blocks)).
Proof.
  intros N W. pose proof (settled_text_base m b N) as J.
  destruct (normal_base_spec m b N) as [Eb Ob].
  destruct (blocks_kept_text_settled m blocks W b J) as [J1 [E1 C1]].
  exists (rstrip (blocks_kept_text m blocks b) ++ nl).
  assert (R : readlines (b ++ blocks_text blocks)
              = (readlines b ++ flat_map block_text_lines blocks)%list).
  { rewrite Eb at 1. rewrite readlines_app, <- Eb.
    now rewrite (readlines_blocks_text blocks W). }
  assert (Sc : scan m scan_init (readlines (b ++ blocks_text blocks))
               = {| text := blocks_kept_text m blocks b;
                    modified_text :=
                      existsb (fun blk => has_key m (fst blk)) blocks;
                    between_marks := false; closing_mark := EmptyString |}).
  { rewrite R, scan_app, (scan_outside m _ Ob scan_init eq_refl).
    rewrite (scan_blocks m blocks W) by reflexivity.
    cbn [text modified_text scan_init orb append].
    now rewrite join_readlines. }
  split; [now apply settled_text_normal|]. split; [|split; [|split]].
  - unfold update_symbols_locale. rewrite Sc. cbn [modified_text text].
    destruct (existsb (fun blk => has_key m (fst blk)) blocks) eqn:X.
    + now rewrite append_assoc.
    + now rewrite (E1 eq_refl Eb).
  - now rewrite Sc.
  - intros X. now apply E1.
  - intros name K. rewrite (C1 name K). rewrite <- Eb.
    unfold marker_count. now rewrite R, filter_app, length_app.
Qed.

(** The markers of the blocks a mapping writes: one for each name it
    installs. *)
Lemma new_blocks_count (m entries : Variant) (name : string) :
  well_formed_variant m = true -> incl entries m ->
  distinct (keys entries) = true ->
  List.length (filter (names_marker name) (flat_map block_lines entries))
  = match dict_get entries name with Some (Some _) => 1 | _ => 0 end.
Proof.
  intros W. induction entries as [|[k layout] entries IH]; intros I D;
    [reflexivity|].
  cbn [keys map fst] in D. apply distinct_cons in D as [Nk D].
  assert (I' : incl entries m) by (intros x Hx; apply I; now right).
  destruct (well_formed_variant_entry m (k, layout) W (I _ (or_introl eq_refl)))
    as [S B]. cbn [fst snd] in S, B.
  cbn [flat_map dict_get]. rewrite filter_app, length_app, (IH I' D).
  destruct layout as [layout|].
  - unfold block_lines. cbn [fst snd].
    rewrite (block_lines_count name k _ S (B layout eq_refl)).
    destruct (String.eqb_spec k name) as [->|N]; [|reflexivity].
    apply has_key_not_in in Nk. apply has_key_false in Nk. now rewrite Nk.
  - unfold block_lines. cbn [fst snd filter List.length].
    destruct (String.eqb_spec k name) as [->|N]; [|reflexivity].
    apply has_key_not_in in Nk. apply has_key_false in Nk. now rewrite Nk.
Qed.

(** C1 (amended).  In a file cut into lines outside the blocks and blocks,
    each from a begin marker naming a key of the mapping, whatever the key
    maps to, over lines none of which ends like a marker, to the matching
    end marker, the commit writes the lines outside the blocks, trimmed
    where a block was and at the end, and the blocks of the mapping: nothing
    of a block is left.  The file is an exact text, and so are the bodies of
    the mapping, whose names are made of ASCII characters.  And in a file
    made of a normal base and of blocks as Kalamine writes them, for
    variants of the mapping or for others, the commit of a well-formed
    mapping leaves one begin marker for each name it installs, none for a
    name it removes, and those of the other names as they were. *)
Theorem mapped_block_dropped (m : Variant) :
  (forall content segs,
     exact_text content = true -> exact_variant m = true ->
     readlines content = flat_map segment_lines segs ->
     forallb (segment_ok m) segs = true ->
     existsb is_dropped segs = true ->
     update_symbols_locale content m
     = rstrip (kept_text segs EmptyString) ++ nl ++ new_blocks m) /\
  (forall content,
     well_formed_variant m = true -> distinct (keys m) = true ->
     symbols_file_ready m content ->
     forall name,
       marker_count name (update_symbols_locale content m)
       = match dict_get m name with
         | Some (Some _) => 1
         | Some None => 0
         | None => marker_count name content
         end).
Proof.
  split.
  - intros content segs _ _ R O X. unfold update_symbols_locale.
    rewrite R, (scan_segments m segs O scan_init eq_refl eq_refl).
    cbn [modified_text text scan_init orb]. rewrite X.
    now rewrite append_assoc.
  - intros content W D [b [blocks [-> [N [_ Wb]]]]] name.
    destruct (update_symbols_locale_blocks m b blocks N Wb)
      as [X [NX [-> [_ [_ C]]]]].
    destruct (normal_base_spec m X NX) as [EX OX].
    rewrite EX at 1. rewrite marker_count_app, <- EX.
    unfold marker_count at 2.
    rewrite (readlines_new_blocks m m W (incl_refl m)).
    rewrite (new_blocks_count m m name W (incl_refl m) D).
    destruct (dict_get m name) as [layout|] eqn:G.
    + assert (K : has_key m name = true) by (apply has_key_get; eauto).
      assert (Ne : name <> EmptyString).
      { apply dict_get_in in G.
        destruct (well_formed_variant_entry m _ W G) as [S _].
        now apply stable_name_spec in S as [Ne _]. }
      unfold marker_count. rewrite (non_opening_count m name _ OX K Ne).
      now destruct layout.
    + apply has_key_false in G. rewrite (C name G). lia.
Qed.

Lemma mapped_block_dropped_witness :
  update_symbols_locale Sample.plain_file Sample.remove_foo
  = Sample.head_line ++ Sample.trailer_line /\
  marker_count "bepo"
    (update_symbols_locale SampleReplace.symbols_fr SampleReplace.variants)
  = 1 /\
  marker_count "oss"
    (update_symbols_locale SampleReplace.symbols_fr SampleReplace.variants)
  = marker_count "oss" SampleReplace.symbols_fr.
Proof.
  split; [|split].
  - apply (proj1 (mapped_block_dropped Sample.remove_foo) Sample.plain_file
             [Outside [Sample.head_line; nl];
              Dropped Sample.foo_begin [Sample.open_line; Sample.close_line];
              Outside [nl; Sample.trailer_line]]);
      reflexivity.
  - apply (proj2 (mapped_block_dropped SampleReplace.variants)
             SampleReplace.symbols_fr eq_refl eq_refl).
    exists Sample.head_line, SampleReplace.blocks.
    repeat split; reflexivity.
  - apply (proj2 (mapped_block_dropped SampleReplace.variants)
             SampleReplace.symbols_fr eq_refl eq_refl).
    exists Sample.head_line, SampleReplace.blocks.
    repeat split; reflexivity.
Defined.

(* ------------------------------------------------------------------------- *)
(** * The registry tree after a commit *)

(** *** The variant list of one locale *)

Lemma filter_removed (m : Variant) (name : string) (vl : list VariantNode) :
  filter (fun v => negb (has_key m (variant_name v)))
         (filter (fun v => negb (variant_name v =? name)) vl)
  = filter (fun v => negb ((name =? variant_name v)
                           || has_key m (variant_name v))) vl.
Proof.
  induction vl as [|v vl IH]; [reflexivity|].
  cbn [filter]. rewrite (String.eqb_sym name (variant_name v)).
  destruct (variant_name v =? name); cbn [negb orb filter]; [exact IH|].
  now rewrite IH.
Qed.

Lemma rules_variant_ok_cons (name : string) (layout : option KeyboardLayout)
  (m : Variant) :
  rules_variant_ok ((name, layout) :: m) = true ->
  ~ In name (keys m) /\ name <> EmptyString /\ xml_compatible name = true /\
  (forall l, layout = Some l -> xml_compatible (meta_description l) = true) /\
  rules_variant_ok m = true.
Proof.
  unfold rules_variant_ok. cbn [keys map fst snd forallb lxml_accepts].
  intros H. apply andb_true_iff in H as [H A].
  apply andb_true_iff in H as [D E].
  apply distinct_cons in D as [N D].
  apply andb_true_iff in E as [E0 E]. apply andb_true_iff in A as [A0 A].
  apply andb_true_iff in A0 as [Xn Xd].
  split; [exact N|]. split.
  { apply negb_true_iff in E0. now apply String.eqb_neq. }
  split; [exact Xn|]. split.
  { intros l ->. exact Xd. }
  apply andb_true_iff. split; [apply andb_true_iff; split|].
  - exact D.
  - exact E.
  - exact A.
Qed.


(** With distinct names, none empty, that lxml takes, the loop over the
    entries returns: it keeps the variants the mapping does not name and
    appends the ones it installs. *)
Lemma update_rules_variants_spec (m : Variant) :
  rules_variant_ok m = true ->
  forall vl,
    update_rules_variants vl m
    = Return (filter (fun v => negb (has_key m (variant_name v))) vl
              ++ installed_variants m)%list.
Proof.
  induction m as [|[name layout] m IH]; intros O vl.
  - cbn. rewrite app_nil_r. f_equal.
    induction vl as [|v vl IHv]; [reflexivity|].
    cbn. now rewrite <- IHv.
  - apply rules_variant_ok_cons in O as [N [Ne [Xn [Xd O]]]].
    cbn [update_rules_variants].
    rewrite (remove_rules_variant_named _ _ Xn Ne). cbn [and_then].
    assert (K : has_key m name = false) by now apply has_key_not_in.
    assert (F : forall v, has_key ((name, layout) :: m) (variant_name v)
                          = (name =? variant_name v)
                            || has_key m (variant_name v))
      by (intros v; apply has_key_cons).
    destruct layout as [layout|]; cbn [installed_variants flat_map snd fst].
    + unfold add_rules_variant. rewrite Xn, (Xd layout eq_refl).
      cbn [andb and_then]. rewrite (IH O). f_equal.
      rewrite filter_app. cbn [filter variant_name].
      rewrite K. cbn [negb]. rewrite filter_removed.
      rewrite <- app_assoc. f_equal.
      apply filter_ext. intros v. now rewrite F.
    + cbn [and_then]. rewrite (IH O). f_equal.
      rewrite filter_removed. f_equal.
      apply filter_ext. intros v. now rewrite F.
Qed.

(** The loop over the entries returns or raises what lxml raises. *)
Lemma update_rules_variants_outcome (m : Variant) (vl : list VariantNode) :
  (exists vl', update_rules_variants vl m = Return vl') \/
  update_rules_variants vl m = Raise ValueError.
Proof.
  revert vl. induction m as [|[name layout] m IH]; intros vl.
  - left. now exists vl.
  - cbn [update_rules_variants]. unfold remove_rules_variant.
    destruct (xml_compatible name) eqn:Xn; cbn [negb]; [|now right].
    destruct (name =? EmptyString); cbn [and_then];
      (destruct layout as [layout|]; cbn [and_then];
       [unfold add_rules_variant; rewrite Xn;
        destruct (xml_compatible (meta_description layout));
        cbn [andb and_then]; [apply IH | now right]
       | apply IH]).
Qed.



(** *** Positions in the tree *)

Lemma xpath_layouts_app (t1 t2 : Tree) (locale : string) (pos : nat) :
  xpath_layouts (t1 ++ t2)%list locale pos
  = (xpath_layouts t1 locale pos
     ++ xpath_layouts t2 locale (pos + List.length t1))%list.
Proof.
  revert pos. induction t1 as [|l t1 IH]; intros pos; cbn [app xpath_layouts].
  - now rewrite Nat.add_0_r.
  - cbn [List.length]. rewrite IH, Nat.add_succ_r.
    destruct (layout_name l =? locale); reflexivity.
Qed.

Lemma xpath_layouts_in (t : Tree) (locale : string) (pos i : nat) :
  In i (xpath_layouts t locale pos) ->
  pos <= i /\
  exists node, nth_error t (i - pos) = Some node /\ layout_name node = locale.
Proof.
  revert pos. induction t as [|l t IH]; intros pos H; [contradiction|].
  cbn [xpath_layouts] in H.
  assert (T : In i (xpath_layouts t locale (S pos)) ->
              pos <= i /\
              exists node, nth_error (l :: t) (i - pos) = Some node /\
                           layout_name node = locale).
  { intros H'. destruct (IH _ H') as [L [node [N E]]]. split; [lia|].
    exists node. split; [|exact E].
    replace (i - pos) with (S (i - S pos)) by lia. exact N. }
  destruct (String.eqb_spec (layout_name l) locale) as [E|N]; [|auto].
  destruct H as [<- | H]; [|auto].
  split; [lia|]. exists l. now rewrite Nat.sub_diag.
Qed.

Lemma xpath_layouts_names (t t' : Tree) (locale : string) (pos : nat) :
  map layout_name t = map layout_name t' ->
  xpath_layouts t locale pos = xpath_layouts t' locale pos.
Proof.
  revert t' pos. induction t as [|l t IH]; intros [|l' t'] pos H;
    try discriminate; [reflexivity|].
  cbn [map] in H. injection H as Hl Ht. cbn [xpath_layouts].
  rewrite Hl, (IH t' (S pos) Ht). reflexivity.
Qed.

Lemma replace_nth_names (i : nat) (x y : LayoutNode) (t : Tree) :
  nth_error t i = Some y -> layout_name x = layout_name y ->
  map layout_name (replace_nth i x t) = map layout_name t.
Proof.
  revert i. induction t as [|z t IH]; intros [|i] H E; try discriminate.
  - cbn in *. injection H as ->. now rewrite E.
  - cbn in *. now rewrite (IH i H E).
Qed.


Lemma nth_error_replace_nth_other {X} (i j : nat) (x : X) (t : list X) :
  i <> j -> nth_error (replace_nth i x t) j = nth_error t j.
Proof.
  revert i j. induction t as [|z t IH]; intros [|i] [|j] N; try reflexivity.
  - contradiction.
  - cbn. apply IH. lia.
Qed.


Lemma same_locale_refl (t : Tree) (locale : string) : same_locale t t locale.
Proof. split; auto. Qed.

Lemma same_locale_trans (t1 t2 t3 : Tree) (locale : string) :
  same_locale t1 t2 locale -> same_locale t2 t3 locale ->
  same_locale t1 t3 locale.
Proof.
  intros [X1 N1] [X2 N2]. split; [congruence|].
  intros j Hj. rewrite N2, N1; auto. now rewrite X1.
Qed.



(** Replacing the node at [i], which is for [locale], by another node for
    [locale] moves no layout and leaves the other locales alone. *)
Lemma replace_nth_frame (t : Tree) (i : nat) (node node' : LayoutNode)
  (locale : string) :
  nth_error t i = Some node -> layout_name node = locale ->
  layout_name node' = locale ->
  (forall l pos, xpath_layouts (replace_nth i node' t) l pos
                 = xpath_layouts t l pos) /\
  (forall l, l <> locale -> same_locale t (replace_nth i node' t) l).
Proof.
  intros Hn E E'.
  assert (X : forall l pos, xpath_layouts (replace_nth i node' t) l pos
                            = xpath_layouts t l pos).
  { intros l pos. apply xpath_layouts_names.
    apply (replace_nth_names i node' node); congruence. }
  split; [exact X|]. intros l Nl. split; [apply X|].
  intros j Hj. apply nth_error_replace_nth_other. intros <-.
  apply xpath_layouts_in in Hj as [_ [n [Hn' En]]].
  rewrite Nat.sub_0_r in Hn'. congruence.
Qed.

(** *** One locale *)




Lemma same_locale_append (t : Tree) (node : LayoutNode) (l : string) :
  layout_name node <> l -> same_locale t (t ++ [node])%list l.
Proof.
  intros N. split.
  - rewrite xpath_layouts_app. cbn [xpath_layouts].
    apply String.eqb_neq in N. rewrite N. apply app_nil_r.
  - intros j Hj. apply xpath_layouts_in in Hj as [_ [n [Hn _]]].
    rewrite Nat.sub_0_r in Hn. apply nth_error_app1.
    apply nth_error_Some. congruence.
Qed.



(** *** All the locales of the index *)



(* ------------------------------------------------------------------------- *)
(** * The disk after a commit *)

Section Commit.

(** The environment of the commit; no operation on it fails. *)
Variable e : env.
Hypothesis NF : no_faults e.

(** *** Rules *)





(** *** Symbols *)






End Commit.

(* ------------------------------------------------------------------------- *)
(** * Committing the same index twice *)







(** The first commit of the sample index changes the symbols file: the old
    [bepo] block goes with the blank line before it, and the new one comes
    after the [oss] block. *)
Example first_commit_replaces_block :
  dict_get
    (symbols_files
       (snd (XKBManager.update SampleDisk.no_fault SampleReplace.self
               SampleReplace.disk0)))
    "fr"
  = Some (rstrip Sample.head_line
          ++ block_text ("oss", "oss {};" ++ nl)
          ++ new_block "bepo" (Some SampleReplace.new_bepo)) /\
  dict_get (symbols_files SampleReplace.disk0) "fr"
  = Some (Sample.head_line
          ++ block_text ("bepo", "old {};" ++ nl)
          ++ block_text ("oss", "oss {};" ++ nl)).
Proof. split; reflexivity. Qed.



(* ------------------------------------------------------------------------- *)
(** * Further properties: the index *)

Lemma keys_dict_set {V} (d : Dict V) (k : string) (v : V) :
  keys (dict_set d k v)
  = if has_key d k then keys d else (keys d ++ [k])%list.
Proof.
  induction d as [|[k0 v0] d IH]; [reflexivity|].
  cbn [dict_set]. rewrite has_key_cons.
  destruct (String.eqb_spec k0 k) as [->|N]; cbn [orb keys map fst].
  - reflexivity.
  - fold (keys (dict_set d k v)). rewrite IH. fold (keys d).
    destruct (has_key d k); reflexivity.
Qed.

Lemma distinct_snoc (l : list string) (k : string) :
  distinct l = true -> existsb (String.eqb k) l = false ->
  distinct (l ++ [k]) = true.
Proof.
  induction l as [|x l IH]; intros D N; [reflexivity|].
  cbn [distinct app existsb] in *.
  apply andb_true_iff in D as [Dx Dl].
  apply orb_false_iff in N as [Nx Nl].
  rewrite (IH Dl Nl), andb_true_r, existsb_app. cbn [existsb].
  apply negb_true_iff in Dx. rewrite Dx, orb_false_r. cbn [orb].
  now rewrite String.eqb_sym, Nx.
Qed.

Lemma distinct_dict_set {V} (d : Dict V) (k : string) (v : V) :
  distinct (keys d) = true -> distinct (keys (dict_set d k v)) = true.
Proof.
  intros D. rewrite keys_dict_set.
  destruct (has_key d k) eqn:K; [exact D|].
  now apply distinct_snoc.
Qed.

Lemma in_dict_set {V} (d : Dict V) (k : string) (v : V) (k' : string) (v' : V) :
  In (k', v') (dict_set d k v) -> (k' = k /\ v' = v) \/ In (k', v') d.
Proof.
  induction d as [|[k0 v0] d IH]; cbn [dict_set].
  - intros [H | []]. injection H as <- <-. auto.
  - destruct (k0 =? k).
    + intros [H | H]; [injection H as <- <-; auto | right; now right].
    + intros [H | H]; [right; now left|].
      destruct (IH H) as [E | I]; [auto | right; now right].
Qed.

Lemma nested_get_set_same {X} (L : Dict (Dict X)) (k1 k2 : string) (x : X) :
  nested_get (nested_set L k1 k2 x) k1 k2 = Some x.
Proof.
  unfold nested_get, nested_set.
  destruct (has_key L k1) eqn:K.
  - apply has_key_get in K as [inner G]. rewrite G.
    now rewrite !dict_get_set_same.
  - now rewrite !dict_get_set_same.
Qed.

Lemma nested_get_set_other {X} (L : Dict (Dict X)) (k1 k2 : string) (x : X)
  (a b : string) :
  (a, b) <> (k1, k2) ->
  nested_get (nested_set L k1 k2 x) a b = nested_get L a b.
Proof.
  intros N. unfold nested_get, nested_set.
  destruct (String.eqb_spec k1 a) as [->|Na].
  - assert (Nb : k2 <> b) by (intros ->; now apply N).
    destruct (has_key L a) eqn:K.
    + apply has_key_get in K as [inner G]. rewrite G.
      rewrite dict_get_set_same. now apply dict_get_set_other.
    + rewrite !dict_get_set_same. apply has_key_false in K. rewrite K.
      now rewrite dict_get_set_other.
  - destruct (has_key L k1) eqn:K.
    + apply has_key_get in K as [inner G]. rewrite G.
      now rewrite dict_get_set_other.
    + rewrite dict_get_set_same, !dict_get_set_other by assumption.
      reflexivity.
Qed.

Lemma distinct_nested_set {X} (L : Dict (Dict X)) (k1 k2 : string) (x : X) :
  distinct_nested L -> distinct_nested (nested_set L k1 k2 x).
Proof.
  intros [D H].
  set (L' := if has_key L k1 then L else dict_set L k1 []).
  assert (D' : distinct (keys L') = true).
  { unfold L'. destruct (has_key L k1); [exact D|]. now apply distinct_dict_set. }
  assert (H' : forall k inner, In (k, inner) L' -> distinct (keys inner) = true).
  { unfold L'. destruct (has_key L k1); [exact H|].
    intros k inner I. apply in_dict_set in I as [[_ ->] | I]; [reflexivity|].
    now apply (H k). }
  unfold nested_set. fold L'.
  destruct (dict_get L' k1) as [inner|] eqn:G; [|now split].
  split; [now apply distinct_dict_set|].
  intros k inner' I. apply in_dict_set in I as [[_ ->] | I].
  - apply distinct_dict_set. apply (H' k1). now apply dict_get_in.
  - now apply (H' k).
Qed.

(** X1.  After [add(layout)] the index holds the layout under its locale and
    variant, after [remove(locale, variant)] it holds the removal, whatever
    was there before; in both cases every other pair is as it was. *)
Theorem index_last_write_wins (self : XKBManager.t) :
  (forall layout,
     nested_get (XKBManager._index (XKBManager.add self layout))
                (meta_locale layout) (meta_variant layout)
     = Some (Some layout) /\
     forall l v,
       (l, v) <> (meta_locale layout, meta_variant layout) ->
       nested_get (XKBManager._index (XKBManager.add self layout)) l v
       = nested_get (XKBManager._index self) l v) /\
  (forall locale variant,
     nested_get (XKBManager._index (XKBManager.remove self locale variant))
                locale variant
     = Some None /\
     forall l v,
       (l, v) <> (locale, variant) ->
       nested_get (XKBManager._index (XKBManager.remove self locale variant))
                  l v
       = nested_get (XKBManager._index self) l v).
Proof.
  split.
  - intros layout. split; [apply nested_get_set_same|].
    intros l v N. now apply nested_get_set_other.
  - intros locale variant. split; [apply nested_get_set_same|].
    intros l v N. now apply nested_get_set_other.
Qed.

(** X2.  [add] and [remove] keep the locales of the index distinct and, under
    each locale, the variant names distinct: an index built from the empty
    one by these two methods has no pair twice. *)
Theorem index_keys_stay_distinct (self : XKBManager.t) :
  distinct_nested (XKBManager._index self) ->
  (forall layout,
     distinct_nested (XKBManager._index (XKBManager.add self layout))) /\
  (forall locale variant,
     distinct_nested
       (XKBManager._index (XKBManager.remove self locale variant))).
Proof.
  intros H. split; intros; now apply distinct_nested_set.
Qed.

Lemma index_keys_stay_distinct_witness :
  distinct_nested (XKBManager._index (SampleDisk.manager [])) /\
  distinct_nested
    (XKBManager._index
       (XKBManager.remove
          (XKBManager.add (SampleDisk.manager []) SampleCommit.bepo)
          "fr" "azerty")).
Proof.
  assert (E : distinct_nested (XKBManager._index (SampleDisk.manager []))).
  { split; [reflexivity | intros k inner []]. }
  split; [exact E|].
  apply (index_keys_stay_distinct
           (XKBManager.add (SampleDisk.manager []) SampleCommit.bepo)).
  apply (index_keys_stay_distinct (SampleDisk.manager []) E).
Defined.

Lemma index_last_write_wins_witness :
  nested_get
    (XKBManager._index
       (XKBManager.remove
          (XKBManager.add (SampleDisk.manager []) SampleCommit.bepo)
          "fr" "azerty")) "fr" "bepo"
  = Some (Some SampleCommit.bepo).
Proof.
  rewrite (proj2 (proj2 (index_last_write_wins
                           (XKBManager.add (SampleDisk.manager [])
                                           SampleCommit.bepo))
                        "fr" "azerty") "fr" "bepo")
    by discriminate.
  apply (proj1 (index_last_write_wins (SampleDisk.manager []))
               SampleCommit.bepo).
Defined.

(* ------------------------------------------------------------------------- *)
(** * Further properties: markers *)

Lemma lower_upper_char (c : ascii) :
  lower_char (upper_char c) = c <-> is_upper_char c = false.
Proof.
  unfold lower_char, upper_char, is_upper_char.
  set (n := nat_of_ascii c).
  assert (B : n < 256) by apply nat_ascii_bounded.
  assert (E : ascii_of_nat n = c) by apply ascii_nat_embedding.
  destruct ((97 <=? n) && (n <=? 122))%nat eqn:L.
  - apply andb_true_iff in L as [L1 L2].
    apply Nat.leb_le in L1, L2.
    rewrite nat_ascii_embedding by lia.
    replace ((65 <=? n - 32) && (n - 32 <=? 90))%nat with true
      by (symmetry; apply andb_true_iff; split; apply Nat.leb_le; lia).
    replace (n - 32 + 32) with n by lia.
    replace ((65 <=? n) && (n <=? 90))%nat with false
      by (symmetry; apply andb_false_iff; right; apply Nat.leb_gt; lia).
    split; auto.
  - fold n. destruct ((65 <=? n) && (n <=? 90))%nat eqn:U.
    + split; [|discriminate]. intros H. exfalso.
      apply andb_true_iff in U as [U1 U2]. apply Nat.leb_le in U1, U2.
      assert (N : nat_of_ascii (ascii_of_nat (n + 32)) = n + 32)
        by (apply nat_ascii_embedding; lia).
      rewrite H in N. fold n in N. lia.
    + split; auto.
Qed.

Lemma lower_upper_stable (name : string) :
  lower (upper name) = name <-> has_upper name = false.
Proof.
  unfold lower, upper. induction name as [|c name IH]; cbn [map_string has_upper].
  - split; reflexivity.
  - rewrite orb_false_iff, <- IH, <- lower_upper_char. split.
    + intros H. injection H as H1 H2. auto.
    + intros [H1 H2]. now rewrite H1, H2.
Qed.

(** X3.  For a name made of ASCII characters, on which the case
    conversions of Python are those of the model, the begin marker
    [get_symbol_mark] writes is recognized by [is_new_symbol_mark] under that
    very name exactly when the name has no upper-case letter; the closing
    mark the scanner derives from it is the end marker [get_symbol_mark]
    writes; and that end marker is not taken for a begin marker. *)
Theorem symbol_mark_round_trip (name : string) :
  is_ascii name = true ->
  (is_new_symbol_mark (mark_begin (get_symbol_mark name)) = Some name
   <-> has_upper name = false) /\
  drop_last 6 (mark_begin (get_symbol_mark name)) ++ "END" ++ nl
  = mark_end (get_symbol_mark name) /\
  is_new_symbol_mark (mark_end (get_symbol_mark name)) = None.
Proof.
  intros _. split; [|split].
  - rewrite current_marker_recognized, <- lower_upper_stable.
    split; [now intros [= H] | now intros ->].
  - apply mark_end_matches.
  - rewrite mark_end_shape. apply end_line_not_recognized.
Qed.

Lemma symbol_mark_round_trip_witness :
  is_ascii "Bepo" = true /\
  ((is_new_symbol_mark (mark_begin (get_symbol_mark "Bepo")) = Some "Bepo"
    <-> has_upper "Bepo" = false) /\
   drop_last 6 (mark_begin (get_symbol_mark "Bepo")) ++ "END" ++ nl
   = mark_end (get_symbol_mark "Bepo") /\
   is_new_symbol_mark (mark_end (get_symbol_mark "Bepo")) = None).
Proof.
  split; [reflexivity | apply (symbol_mark_round_trip "Bepo"); reflexivity].
Defined.

(* ------------------------------------------------------------------------- *)
(** * Further properties: the scanning pass on whole files *)












(* ------------------------------------------------------------------------- *)
(** * Further properties: listing *)













(* ------------------------------------------------------------------------- *)
(** * Further properties: masks *)

Lemma split_slash_nonempty (s : string) : split_slash s <> [].
Proof.
  destruct s as [|c s]; cbn [split_slash]; [discriminate|].
  destruct (Ascii.eqb c "/"); [discriminate|].
  destruct (split_slash s); discriminate.
Qed.

Lemma split_slash_length_app (a b : string) :
  List.length (split_slash (a ++ String "/" b))
  = List.length (split_slash a) + List.length (split_slash b).
Proof.
  induction a as [|c a IH].
  - reflexivity.
  - change (String c a ++ String "/" b) with (String c (a ++ String "/" b)).
    cbn [split_slash]. destruct (Ascii.eqb c "/").
    + cbn [List.length]. now rewrite IH.
    + pose proof (split_slash_nonempty (a ++ String "/" b)) as N1.
      pose proof (split_slash_nonempty a) as N2.
      destruct (split_slash (a ++ String "/" b)) as [|w ws];
        [contradiction|].
      destruct (split_slash a) as [|w' ws']; [contradiction|].
      exact IH.
Qed.

Lemma split_slash_length_pos (s : string) : 1 <= List.length (split_slash s).
Proof.
  pose proof (split_slash_nonempty s). destruct (split_slash s);
    [contradiction | cbn; lia].
Qed.

Lemma parse_mask_many (mask : string) :
  3 <= List.length (split_slash mask) -> parse_mask mask = (mask, "*").
Proof.
  intros L. unfold parse_mask.
  destruct (mask =? EmptyString) eqn:E1.
  { apply String.eqb_eq in E1. subst mask. cbn in L. lia. }
  destruct (mask =? "*") eqn:E2.
  { apply String.eqb_eq in E2. subst mask. cbn in L. lia. }
  cbn [orb]. destruct (split_slash mask) as [|x [|y [|z r]]];
    cbn in L; try lia; reflexivity.
Qed.

Lemma list_rules_parse_mask (d : disk) (mask mask' : string) :
  parse_mask mask = parse_mask mask' -> list_rules d mask = list_rules d mask'.
Proof. intros E. unfold list_rules. now rewrite E. Qed.

(** X10.  The masks [*] and the empty mask list the same, and so do a
    locale [l] and [l/*], both for [list_all] and for [list]. *)
Theorem wildcard_masks (d : disk) (l : string) :
  has_char "/" l = false -> l <> EmptyString ->
  XKBManager.list_all d "*" = XKBManager.list_all d EmptyString /\
  XKBManager.list d "*" = XKBManager.list d EmptyString /\
  XKBManager.list_all d (l ++ "/*") = XKBManager.list_all d l /\
  XKBManager.list d (l ++ "/*") = XKBManager.list d l.
Proof.
  intros Hl Ne. unfold XKBManager.list_all, XKBManager.list.
  assert (E : list_rules d (l ++ "/*") = list_rules d l).
  { apply list_rules_parse_mask.
    change (l ++ "/*") with (l ++ "/" ++ "*").
    rewrite (parse_mask_pair l "*" Hl eq_refl).
    destruct (string_dec l "*") as [->|Ns]; [reflexivity|].
    now rewrite parse_mask_plain. }
  repeat split; try reflexivity; now rewrite E.
Qed.

Lemma wildcard_masks_witness :
  XKBManager.list_all SampleDisk.fr_disk "fr/*"
  = XKBManager.list_all SampleDisk.fr_disk "fr".
Proof.
  apply (wildcard_masks SampleDisk.fr_disk "fr" eq_refl).
  discriminate.
Defined.

(** X11.  A mask with two slashes or more is taken whole as the name of a
    locale: [list_all] returns the declared pairs whose locale is the mask
    itself. *)
Theorem mask_with_two_slashes (d : disk) (a b c l v : string) :
  in_nested (XKBManager.list_all d (a ++ "/" ++ b ++ "/" ++ c)) l v
  = declared d l v && ((a ++ "/" ++ b ++ "/" ++ c) =? l).
Proof.
  unfold XKBManager.list_all. rewrite list_rules_spec. unfold mask_matches.
  set (mask := a ++ "/" ++ b ++ "/" ++ c).
  assert (L : 3 <= List.length (split_slash mask)).
  { unfold mask. change ("/" ++ b ++ "/" ++ c) with (String "/" (b ++ "/" ++ c)).
    rewrite split_slash_length_app.
    change ("/" ++ c) with (String "/" c). rewrite split_slash_length_app.
    pose proof (split_slash_length_pos a). pose proof (split_slash_length_pos b).
    pose proof (split_slash_length_pos c). lia. }
  rewrite (parse_mask_many mask L). cbn [fst snd].
  assert (N : mask <> "*").
  { intros E. rewrite E in L. cbn in L. lia. }
  rewrite (mask_accepts_exact mask l N). unfold mask_accepts.
  cbn. now rewrite andb_true_r.
Qed.

(* ------------------------------------------------------------------------- *)
(** * Further properties: the registry tree *)

Lemma count_name_unnamed (m : Variant) (name : string)
  (vl : list VariantNode) :
  count_name name (filter (fun v => negb (has_key m (variant_name v))) vl)
  = if has_key m name then 0 else count_name name vl.
Proof.
  unfold count_name. induction vl as [|v vl IH].
  - cbn. now destruct (has_key m name).
  - cbn [filter]. destruct (has_key m (variant_name v)) eqn:K;
      cbn [negb map count_occ].
    + rewrite IH. destruct (string_dec (variant_name v) name) as [E|N];
        [|reflexivity].
      rewrite <- E, K. reflexivity.
    + rewrite IH. destruct (string_dec (variant_name v) name) as [E|N];
        [|reflexivity].
      rewrite <- E, K. reflexivity.
Qed.

Lemma count_name_installed (m : Variant) (name : string) :
  distinct (keys m) = true ->
  count_name name (installed_variants m)
  = match dict_get m name with Some (Some _) => 1 | _ => 0 end.
Proof.
  induction m as [|[k lay] m IH]; intros D; [reflexivity|].
  cbn [keys map fst] in D. apply distinct_cons in D as [N D].
  change (installed_variants ((k, lay) :: m))
    with ((match lay with
           | Some layout => [variant_node k layout]
           | None => []
           end) ++ installed_variants m)%list.
  rewrite count_name_app, (IH D). cbn [dict_get].
  destruct (String.eqb_spec k name) as [->|Nk].
  - apply has_key_not_in in N. apply has_key_false in N. rewrite N.
    destruct lay as [layout|]; [|reflexivity].
    unfold count_name. cbn [map variant_node variant_name count_occ].
    destruct (string_dec name name); [reflexivity | contradiction].
  - destruct lay as [layout|]; [|reflexivity].
    unfold count_name. cbn [map variant_node variant_name count_occ].
    destruct (string_dec k name); [contradiction | reflexivity].
Qed.

Lemma xpath_names_not_empty (ks : list string) :
  forallb xpath_name ks = true ->
  forallb (fun k => negb (k =? EmptyString)) ks = true.
Proof.
  intros H. apply forallb_forall. intros k I.
  rewrite forallb_forall in H. specialize (H k I). unfold xpath_name in H.
  now apply andb_true_iff in H as [H _].
Qed.

(** The loop over the entries of one locale returns when lxml takes the
    names and the descriptions, and raises what lxml raises otherwise. *)
Lemma update_rules_variants_returns (m : Variant) :
  lxml_accepts m = true ->
  forall vl, exists vl', update_rules_variants vl m = Return vl'.
Proof.
  induction m as [|[name layout] m IH]; intros A vl; [now exists vl|].
  unfold lxml_accepts in A. cbn [forallb fst snd] in A.
  apply andb_true_iff in A as [A Am]. apply andb_true_iff in A as [Xn Xd].
  cbn [update_rules_variants]. unfold remove_rules_variant, add_rules_variant.
  rewrite Xn. cbn [negb].
  destruct (name =? EmptyString); cbn [and_then]; destruct layout as [l|];
    rewrite ?Xd; cbn [andb and_then]; apply (IH Am).
Qed.

Lemma update_rules_variants_refused (m : Variant) :
  lxml_accepts m = false ->
  forall vl, update_rules_variants vl m = Raise ValueError.
Proof.
  induction m as [|[name layout] m IH]; intros A vl; [discriminate|].
  unfold lxml_accepts in A. cbn [forallb fst snd] in A.
  cbn [update_rules_variants]. unfold remove_rules_variant, add_rules_variant.
  destruct (xml_compatible name) eqn:Xn; cbn [negb andb and_then];
    [|reflexivity].
  cbn [andb] in A.
  destruct (name =? EmptyString); cbn [and_then]; destruct layout as [l|];
    try (destruct (xml_compatible (meta_description l)) eqn:Xd;
         cbn [andb and_then]; [|reflexivity]);
    cbn [andb and_then] in *; apply IH; exact A.
Qed.

(** X12.  The loop of [update_rules] over the entries of one locale, when
    the names of the mapping are distinct, as the keys of a dictionary are,
    not empty and free of the double quote: if lxml takes the names and the
    descriptions to install, the variant list becomes the nodes the mapping
    does not name, in their order, followed by one node per installed entry,
    in the order of the mapping, and otherwise the loop raises the
    [ValueError] of lxml.  In the list made so an installed name occurs
    once, a removed name not at all, and any other name as often as
    before. *)
Theorem variants_after_update (m : Variant) (vl : list VariantNode) :
  distinct (keys m) = true -> forallb xpath_name (keys m) = true ->
  let result :=
    (filter (fun v => negb (has_key m (variant_name v))) vl
     ++ installed_variants m)%list in
  update_rules_variants vl m
  = (if lxml_accepts m then Return result else Raise ValueError) /\
  forall name,
    count_name name result
    = match dict_get m name with
      | Some (Some _) => 1
      | Some None => 0
      | None => count_name name vl
      end.
Proof.
  intros D X result. split.
  - destruct (lxml_accepts m) eqn:A.
    + apply update_rules_variants_spec. unfold rules_variant_ok.
      now rewrite D, (xpath_names_not_empty _ X), A.
    + now apply update_rules_variants_refused.
  - intros name. unfold result. rewrite count_name_app,
      count_name_unnamed, (count_name_installed m name D).
    destruct (dict_get m name) as [[layout|]|] eqn:G.
    + assert (K : has_key m name = true) by (apply has_key_get; eauto).
      now rewrite K.
    + assert (K : has_key m name = true) by (apply has_key_get; eauto).
      now rewrite K.
    + apply has_key_false in G. rewrite G. lia.
Qed.

Lemma variants_after_update_witness :
  update_rules_variants
    [SampleDisk.variant "azerty" "French (AZERTY)";
     SampleDisk.variant "bepo" "French (Bepo)";
     SampleDisk.variant "oss" "French (OSS)"]
    [("bepo", None);
     ("azerty", Some (Sample.layout "fr" "azerty" "French (new)" "xkb"))]
  = Return [SampleDisk.variant "oss" "French (OSS)";
            SampleDisk.variant "azerty" "French (new)"] /\
  update_rules_variants
    [SampleDisk.variant "azerty" "French (AZERTY)"]
    [("bepo", Some (Sample.layout "fr" "bepo" (String "007" "Bepo") "xkb"))]
  = Raise ValueError.
Proof.
  split.
  - apply (proj1 (variants_after_update
             [("bepo", None);
              ("azerty",
               Some (Sample.layout "fr" "azerty" "French (new)" "xkb"))]
             [SampleDisk.variant "azerty" "French (AZERTY)";
              SampleDisk.variant "bepo" "French (Bepo)";
              SampleDisk.variant "oss" "French (OSS)"]
             eq_refl eq_refl)).
  - apply (proj1 (variants_after_update
             [("bepo",
               Some (Sample.layout "fr" "bepo" (String "007" "Bepo") "xkb"))]
             [SampleDisk.variant "azerty" "French (AZERTY)"]
             eq_refl eq_refl)).
Defined.


Lemma xpath_layouts_new_layout (tree : Tree) (locale : string) :
  xpath_layouts (tree ++ [new_layout locale])%list locale 0
  = (xpath_layouts tree locale 0 ++ [List.length tree])%list.
Proof.
  rewrite xpath_layouts_app. cbn [xpath_layouts new_layout layout_name].
  now rewrite String.eqb_refl.
Qed.

(** The layout [get_rules_locale] returns exists and has the name asked
    for; the tree is the one given, or that tree with a new layout. *)
Lemma get_rules_locale_found (tree : Tree) (locale : string) :
  xml_compatible locale = true ->
  exists tree' i node,
    get_rules_locale tree locale = Return (tree', i) /\
    nth_error tree' i = Some node /\ layout_name node = locale /\
    hd_error (xpath_layouts tree' locale 0) = Some i /\
    ((count_layouts tree locale = 1 /\ tree' = tree) \/
     (count_layouts tree locale <> 1 /\
      tree' = (tree ++ [new_layout locale])%list)).
Proof.
  intros Xl. unfold get_rules_locale, count_layouts. rewrite Xl. cbn [negb].
  destruct (Nat.eqb_spec (List.length (xpath_layouts tree locale 0)) 1)
    as [E|N].
  - destruct (xpath_layouts tree locale 0) as [|i [|j r]] eqn:X;
      try discriminate E.
    assert (I : In i (xpath_layouts tree locale 0)) by (rewrite X; now left).
    apply xpath_layouts_in in I as [_ [node [Hn Hl]]].
    rewrite Nat.sub_0_r in Hn.
    exists tree, i, node. rewrite ?X. repeat split; auto.
  - set (tree' := (tree ++ [new_layout locale])%list).
    assert (X : xpath_layouts tree' locale 0
                = (xpath_layouts tree locale 0 ++ [List.length tree])%list)
      by apply xpath_layouts_new_layout.
    destruct (xpath_layouts tree' locale 0) as [|i r] eqn:X'.
    { destruct (xpath_layouts tree locale 0); discriminate X. }
    assert (I : In i (xpath_layouts tree' locale 0)) by (rewrite X'; now left).
    apply xpath_layouts_in in I as [_ [node [Hn Hl]]].
    rewrite Nat.sub_0_r in Hn.
    exists tree', i, node. repeat split; auto. now rewrite X'.
Qed.

Lemma get_rules_locale_refused (tree : Tree) (locale : string) :
  xml_compatible locale = false ->
  get_rules_locale tree locale = Raise ValueError.
Proof. intros Xl. unfold get_rules_locale. now rewrite Xl. Qed.

(** What a round of the loop over the locales that returns has done. *)
Lemma update_rules_locale_inv (filepath : string) (t t' : Tree)
  (locale : string) (m : Variant) :
  update_rules_locale filepath t locale m = Return t' ->
  exists tree' i node vl vl',
    hd_error (xpath_layouts tree' locale 0) = Some i /\
    nth_error tree' i = Some node /\ layout_name node = locale /\
    variantLists node = [vl] /\
    ((count_layouts t locale = 1 /\ tree' = t) \/
     (count_layouts t locale <> 1 /\
      tree' = (t ++ [new_layout locale])%list)) /\
    update_rules_variants vl m = Return vl' /\
    t' = replace_nth i {| layout_name := layout_name node;
                          variantLists := [vl'] |}
                     tree'.
Proof.
  intros H. unfold update_rules_locale in H.
  destruct (xml_compatible locale) eqn:Xl;
    [|rewrite (get_rules_locale_refused t locale Xl) in H; discriminate H].
  destruct (get_rules_locale_found t locale Xl)
    as [tree' [i [node [G [Hn [Hl [Hd C]]]]]]].
  rewrite G in H. cbn [and_then fst snd] in H. rewrite Hn in H.
  destruct (variantLists node) as [|vl [|vl2 r]] eqn:V; try discriminate H.
  destruct (update_rules_variants vl m) as [vl'|ex|msg] eqn:U;
    try discriminate H.
  cbn [and_then] in H. injection H as <-.
  exists tree', i, node, vl, vl'. repeat split; auto.
Qed.

(** A round of the loop raises nothing but what lxml raises for a string it
    does not take. *)
Lemma update_rules_locale_raise (filepath : string) (t : Tree)
  (locale : string) (m : Variant) (exc : exception) :
  update_rules_locale filepath t locale m = Raise exc ->
  exc = ValueError /\ xml_compatible locale && lxml_accepts m = false.
Proof.
  unfold update_rules_locale. destruct (xml_compatible locale) eqn:Xl.
  - destruct (get_rules_locale_found t locale Xl)
      as [tree' [i [node [G [Hn _]]]]].
    rewrite G. cbn [and_then fst snd]. rewrite Hn.
    destruct (variantLists node) as [|vl [|vl2 r]]; try discriminate.
    destruct (lxml_accepts m) eqn:A.
    + destruct (update_rules_variants_returns m A vl) as [vl' ->].
      discriminate.
    + rewrite (update_rules_variants_refused m A vl). cbn [and_then].
      intros [= <-]. auto.
  - rewrite (get_rules_locale_refused t locale Xl). cbn [and_then].
    intros [= <-]. auto.
Qed.

Lemma one_variant_list_replace_nth (i : nat) (node : LayoutNode) (t : Tree) :
  one_variant_list t = true ->
  (List.length (variantLists node) =? 1)%nat = true ->
  one_variant_list (replace_nth i node t) = true.
Proof.
  unfold one_variant_list. revert i.
  induction t as [|y t IH]; intros [|i] H N; cbn in *; auto.
  - apply andb_true_iff in H as [_ H]. now rewrite N.
  - apply andb_true_iff in H as [Hy H]. rewrite Hy. now apply IH.
Qed.

Lemma one_variant_list_nth (t : Tree) (i : nat) (node : LayoutNode) :
  one_variant_list t = true -> nth_error t i = Some node ->
  exists vl, variantLists node = [vl].
Proof.
  unfold one_variant_list. intros H Hn.
  apply nth_error_In in Hn. rewrite forallb_forall in H.
  specialize (H node Hn). apply Nat.eqb_eq in H.
  destruct (variantLists node) as [|vl [|vl' r]]; try discriminate H.
  now exists vl.
Qed.

Lemma update_rules_locale_returns (filepath : string) (t : Tree)
  (locale : string) (m : Variant) :
  one_variant_list t = true ->
  if xml_compatible locale && lxml_accepts m
  then exists t',
         update_rules_locale filepath t locale m = Return t' /\
         one_variant_list t' = true
  else update_rules_locale filepath t locale m = Raise ValueError.
Proof.
  intros O. unfold update_rules_locale.
  destruct (xml_compatible locale) eqn:Xl; cbn [andb];
    [|now rewrite (get_rules_locale_refused t locale Xl)].
  destruct (get_rules_locale_found t locale Xl)
    as [tree' [i [node [G [Hn [_ [_ C]]]]]]].
  rewrite G. cbn [and_then fst snd]. rewrite Hn.
  assert (O' : one_variant_list tree' = true).
  { destruct C as [[_ ->] | [_ ->]]; [exact O|].
    unfold one_variant_list. rewrite forallb_app. fold (one_variant_list t).
    now rewrite O. }
  destruct (one_variant_list_nth tree' i node O' Hn) as [vl V]. rewrite V.
  destruct (lxml_accepts m) eqn:A.
  - destruct (update_rules_variants_returns m A vl) as [vl' ->].
    cbn [and_then]. eexists. split; [reflexivity|].
    now apply one_variant_list_replace_nth.
  - now rewrite (update_rules_variants_refused m A vl).
Qed.

(** X13.  The loop of [update_rules] over the locales of the index, on a
    parsed tree, when the locales and the variant names are not empty and
    free of the double quote.  The layout it asks for is always found, a
    missing one being appended first: the loop raises only the [ValueError]
    of lxml, for a locale, a name or a description lxml does not take, and
    stops otherwise only with the exit for an unexpected format.  When every
    layout of the tree has one [variantList], it returns a tree of which
    this is still true if lxml takes every string of the index, and raises
    that [ValueError] if not. *)
Theorem update_rules_tree_outcome (filepath : string) (kb_index : Index)
  (tree : Tree) :
  xpath_index kb_index = true ->
  (forall exc,
     update_rules_tree filepath tree kb_index = Raise exc ->
     exc = ValueError /\ xml_index kb_index = false) /\
  (forall msg,
     update_rules_tree filepath tree kb_index = SystemExit msg ->
     msg = "Error: unexpected xml format in " ++ filepath ++ ".") /\
  (one_variant_list tree = true ->
   if xml_index kb_index
   then exists tree',
          update_rules_tree filepath tree kb_index = Return tree' /\
          one_variant_list tree' = true
   else update_rules_tree filepath tree kb_index = Raise ValueError).
Proof.
  intros _. revert tree.
  induction kb_index as [|[locale m] kb_index IH]; intros tree.
  - cbn [update_rules_tree]. split; [discriminate|].
    split; [discriminate|]. intros O. now exists tree.
  - cbn [update_rules_tree xml_index forallb fst snd]. fold (xml_index kb_index).
    split; [|split].
    + intros exc.
      destruct (update_rules_locale filepath tree locale m) as [t'|e|s] eqn:U.
      * intros R. destruct (proj1 (IH t') exc R) as [-> X].
        split; [reflexivity|]. rewrite X. apply andb_false_r.
      * intros [= <-].
        destruct (update_rules_locale_raise filepath tree locale m e U)
          as [-> X].
        split; [reflexivity|]. now rewrite X.
      * discriminate.
    + intros msg.
      destruct (update_rules_locale filepath tree locale m) as [t'|e|s] eqn:U.
      * apply IH.
      * discriminate.
      * intros [= <-]. unfold update_rules_locale in U.
        destruct (xml_compatible locale) eqn:Xl;
          [|rewrite (get_rules_locale_refused tree locale Xl) in U;
            discriminate U].
        destruct (get_rules_locale_found tree locale Xl)
          as [tree' [i [node [G [Hn _]]]]].
        rewrite G in U. cbn [and_then fst snd] in U. rewrite Hn in U.
        destruct (variantLists node) as [|vl [|vl2 r]];
          try (now injection U).
        destruct (update_rules_variants_outcome m vl) as [[vl' E]|E];
          rewrite E in U; discriminate U.
    + intros O.
      pose proof (update_rules_locale_returns filepath tree locale m O) as R.
      destruct (xml_compatible locale && lxml_accepts m).
      * destruct R as [t' [U O']]. rewrite U. cbn [andb].
        now apply IH.
      * now rewrite R.
Qed.

Lemma update_rules_tree_outcome_witness :
  exists tree',
    update_rules_tree "rules/evdev.xml" SampleTree.doubled
                      [("fr", SampleTree.install_bepo)]
    = Return tree' /\
    one_variant_list tree' = true.
Proof.
  apply (proj2 (proj2 (update_rules_tree_outcome "rules/evdev.xml"
                         [("fr", SampleTree.install_bepo)] SampleTree.doubled
                         eq_refl))
           eq_refl).
Defined.



Lemma update_rules_locale_frame (filepath : string) (t t' : Tree)
  (locale : string) (m : Variant) :
  update_rules_locale filepath t locale m = Return t' ->
  xpath_layouts t' locale 0 <> [] /\
  (forall l, l <> locale -> same_locale t t' l).
Proof.
  intros U.
  apply update_rules_locale_inv in U
    as [tree' [i [node [vl [vl' [G [Hn [Hl [V [C [Uv ->]]]]]]]]]]].
  destruct (replace_nth_frame tree' i node
              {| layout_name := layout_name node;
                 variantLists := [vl'] |}
              locale Hn Hl Hl) as [Xp Fr].
  split.
  - rewrite Xp. intros E. rewrite E in G. discriminate G.
  - intros l Nl. apply (same_locale_trans _ tree'); [|now apply Fr].
    destruct C as [[_ ->] | [_ ->]]; [apply same_locale_refl|].
    apply same_locale_append. cbn. congruence.
Qed.

Lemma update_rules_tree_located (filepath : string) (kb_index : Index)
  (t t1 : Tree) :
  update_rules_tree filepath t kb_index = Return t1 ->
  (forall l, In l (keys kb_index) -> count_layouts t1 l <> 0) /\
  (forall l, ~ In l (keys kb_index) -> same_locale t t1 l).
Proof.
  revert t.
  induction kb_index as [|[locale m] kb_index IH]; intros t U.
  - cbn in U. injection U as <-. split; [intros l []|].
    intros l _. apply same_locale_refl.
  - cbn [update_rules_tree] in U.
    destruct (update_rules_locale filepath t locale m) as [t'|e|s] eqn:L;
      try discriminate U.
    destruct (update_rules_locale_frame filepath t t' locale m L) as [Ne Fr].
    destruct (IH t' U) as [Hin Hout]. split.
    + intros l [<-|I].
      * cbn [fst]. destruct (in_dec string_dec locale (keys kb_index)) as [I|N];
          [now apply Hin|].
        destruct (Hout locale N) as [Ex _]. unfold count_layouts.
        rewrite Ex. destruct (xpath_layouts t' locale 0);
          [contradiction | discriminate].
      * now apply Hin.
    + intros l N. cbn [keys map fst] in N.
      apply (same_locale_trans _ t').
      * apply Fr. intros ->. apply N. now left.
      * apply Hout. intros I. apply N. now right.
Qed.

Lemma update_rules_locale_layout_names (filepath : string) (t t' : Tree)
  (locale : string) (m : Variant) :
  update_rules_locale filepath t locale m = Return t' ->
  map layout_name t' = map layout_name t \/
  map layout_name t' = (map layout_name t ++ [locale])%list.
Proof.
  intros U.
  apply update_rules_locale_inv in U
    as [tree' [i [node [vl [vl' [G [Hn [Hl [V [C [Uv ->]]]]]]]]]]].
  rewrite (replace_nth_names i _ node tree' Hn) by reflexivity.
  destruct C as [[_ ->] | [_ ->]]; [now left|].
  right. now rewrite map_app.
Qed.

(** X15.  When the loop over the locales of the index returns, every locale
    of the index has a layout in the tree, and the layouts of every other
    locale are the same nodes at the same places as before.  The layouts
    keep their names and their order, and the new ones, all for locales of
    the index, come after them. *)
Theorem update_rules_tree_frame (filepath : string) (kb_index : Index)
  (t t1 : Tree) :
  xpath_index kb_index = true ->
  update_rules_tree filepath t kb_index = Return t1 ->
  (forall l, In l (keys kb_index) -> count_layouts t1 l <> 0) /\
  (forall l, ~ In l (keys kb_index) -> same_locale t t1 l) /\
  exists added,
    map layout_name t1 = (map layout_name t ++ added)%list /\
    incl added (keys kb_index).
Proof.
  intros _ U.
  destruct (update_rules_tree_located filepath kb_index t t1 U) as [A B].
  split; [exact A|]. split; [exact B|]. clear A B. revert t U.
  induction kb_index as [|[locale m] kb_index IH]; intros t U.
  - cbn in U. injection U as <-. exists []. rewrite app_nil_r.
    split; [reflexivity | apply incl_refl].
  - cbn [update_rules_tree] in U.
    destruct (update_rules_locale filepath t locale m) as [t'|e|s] eqn:L;
      try discriminate U.
    destruct (IH t' U) as [added [E I]].
    cbn [keys map fst]. fold (keys kb_index).
    destruct (update_rules_locale_layout_names _ _ _ _ _ L) as [N|N].
    + exists added. rewrite E, N. split; [reflexivity|].
      now apply incl_tl.
    + exists (locale :: added). rewrite E, N, <- app_assoc.
      split; [reflexivity|].
      apply incl_cons; [now left | now apply incl_tl].
Qed.

Lemma update_rules_tree_frame_witness :
  let t1 :=
    [ {| layout_name := "fr";
         variantLists :=
           [[SampleDisk.variant "azerty" "French (AZERTY)";
             SampleDisk.variant "bepo" "French (Bepo)"]] |};
      {| layout_name := "de"; variantLists := [[]] |};
      {| layout_name := "fr"; variantLists := [[]] |};
      {| layout_name := "fr"; variantLists := [[]] |} ] in
  count_layouts t1 "fr" <> 0 /\ same_locale SampleTree.doubled t1 "de".
Proof.
  intros t1.
  destruct (update_rules_tree_frame "rules/evdev.xml"
              [("fr", SampleTree.install_bepo)] SampleTree.doubled t1
              eq_refl eq_refl) as [Hin Hout].
  split.
  - apply Hin. now left.
  - apply Hout. intros [H | []]. discriminate H.
Defined.

(* ------------------------------------------------------------------------- *)
(** * Further properties: how a command ends *)

(** X16.  The guarded call ends with the disk the guarded command leaves.
    It returns exactly when the command returns, with the same value; it
    raises exactly the permission errors of the command; an exit of the
    command goes through, and an exception that is no I/O error becomes an
    exit whose message holds the text of the exception and the traceback. *)
Theorem guarded_outcomes {A : Type} (m : M A) (path : string) (d : disk) :
  snd (guarded m path d) = snd (m d) /\
  (forall a, fst (guarded m path d) = Return a <-> fst (m d) = Return a) /\
  (forall exc,
     fst (guarded m path d) = Raise exc
     <-> fst (m d) = Raise exc /\ exc_kind exc = PermissionError) /\
  (forall msg,
     fst (m d) = SystemExit msg -> fst (guarded m path d) = SystemExit msg) /\
  (forall exc,
     fst (m d) = Raise exc -> exc_kind exc = OtherException ->
     fst (guarded m path d)
     = SystemExit ("Error: " ++ exc_str exc ++ "." ++ nl
                   ++ exc_traceback exc)).
Proof.
  unfold guarded, try_except, exit_FileNotWritable,
    isinstance_PermissionError, isinstance_IOError, raise, sys_exit.
  destruct (m d) as [[a|exc|msg] d'];
    [|destruct (exc_kind exc) eqn:K|]; cbn;
    repeat split; intros;
    repeat match goal with H : _ /\ _ |- _ => destruct H end;
    try discriminate; try congruence; auto.
Qed.

Lemma keeps_bind {A B X} (proj : disk -> X) (m : M A) (k : A -> M B) :
  keeps proj m -> (forall a, keeps proj (k a)) -> keeps proj (bind m k).
Proof.
  intros Hm Hk d. unfold bind. specialize (Hm d).
  destruct (m d) as [[a|exc|msg] d']; cbn [snd] in *; [|exact Hm..].
  now rewrite Hk.
Qed.

Lemma keeps_try_except {A X} (proj : disk -> X) (m : M A)
  (h : exception -> M A) :
  keeps proj m -> (forall exc, keeps proj (h exc)) ->
  keeps proj (try_except m h).
Proof.
  intros Hm Hh d. unfold try_except. specialize (Hm d).
  destruct (m d) as [[a|exc|msg] d']; cbn [snd] in *; [exact Hm| |exact Hm].
  now rewrite Hh.
Qed.

Lemma keeps_for_each {X Y} (proj : disk -> Y) (xs : list X)
  (body : X -> M unit) :
  (forall x, keeps proj (body x)) -> keeps proj (for_each xs body).
Proof.
  intros H. induction xs as [|x xs IH]; [intros d; reflexivity|].
  cbn [for_each]. apply keeps_bind; auto.
Qed.

Lemma keeps_pure {A X} (proj : disk -> X) (m : M A) :
  reads_only m -> keeps proj m.
Proof. intros H d. now rewrite H. Qed.

Lemma keeps_exit {A X} (proj : disk -> X) (exc : exception) (path : string) :
  keeps proj (@exit_FileNotWritable A exc path).
Proof.
  intros d. unfold exit_FileNotWritable.
  destruct (isinstance_PermissionError exc); [reflexivity|].
  destruct (isinstance_IOError exc); reflexivity.
Qed.

Lemma keeps_open {X} (proj : disk -> X) (e : env) (a : access)
  (path : string) :
  keeps proj (open_path e a path).
Proof. intros d. unfold open_path. now destruct (fault e a path). Qed.

Lemma update_rules_keeps_symbols (e : env) (kb_index : Index) :
  keeps symbols_files (update_rules e kb_index).
Proof.
  unfold update_rules. apply keeps_for_each. intros filename.
  unfold update_rules_file. apply keeps_bind; [intros d; reflexivity|].
  intros [parsed|]; [|intros d; reflexivity].
  apply keeps_try_except; [|intros exc; apply keeps_exit].
  apply keeps_bind; [apply keeps_open|]. intros _.
  apply keeps_bind; [intros d; reflexivity|]. intros tree.
  apply keeps_bind; [apply keeps_open|]. intros _.
  apply keeps_bind; intros; intros d; reflexivity.
Qed.

Lemma update_symbols_entry_keeps_rules (e : env) (entry : string * Variant) :
  keeps rules_files (update_symbols_entry e entry).
Proof.
  unfold update_symbols_entry. apply keeps_bind; [intros d; reflexivity|].
  intros content. apply keeps_bind.
  - destruct content; [intros d; reflexivity|].
    apply keeps_bind; [apply keeps_open|]. intros _.
    apply keeps_bind; intros; intros d; reflexivity.
  - intros _. apply keeps_try_except; [|intros exc; apply keeps_exit].
    unfold update_symbols_locale_io.
    apply keeps_bind; [apply keeps_open|]. intros _.
    apply keeps_bind; [intros d; reflexivity|].
    intros [c|]; [|intros d; reflexivity].
    destruct (modified_text _ || has_definition _); [|intros d; reflexivity].
    apply keeps_bind; intros; intros d; reflexivity.
Qed.

Lemma update_symbols_keeps_rules (e : env) (kb_index : Index) :
  keeps rules_files (update_symbols e kb_index).
Proof.
  unfold update_symbols. apply keeps_for_each. intros entry.
  apply update_symbols_entry_keeps_rules.
Qed.









(* ------------------------------------------------------------------------- *)
(** * Further properties: the symbols files on disk *)







(* ------------------------------------------------------------------------- *)
(** * Further properties: the locale [custom] *)
















(* ------------------------------------------------------------------------- *)
(** * Further properties: listing after a commit *)











(* ------------------------------------------------------------------------- *)
(** * Further properties: a commit without the right to write *)



(* ------------------------------------------------------------------------- *)
(** * Further properties: the descriptions of a listing *)



(** In the registry that declares [bepo] three times, the description is
    the one of [evdev.xml]. *)
Example last_declaration_example :
  nested_get (XKBManager.list_all SampleTwice.registry "fr") "fr" "bepo"
  = Some "third".
Proof. reflexivity. Qed.

(* ------------------------------------------------------------------------- *)
(** * Further properties: the environment *)

(** X26.  A variable of the environment that is set to the empty string
    counts as unset: the configuration directory is then [~/.config], and
    the session is not taken for a Wayland one.  The session is a Wayland
    one exactly when [XDG_SESSION_TYPE] starts with [wayland]. *)
Theorem empty_variable_counts_as_unset (environ : Dict string) (home : Path)
  (Path_of : string -> Path) :
  (dict_get environ "XDG_CONFIG_HOME" = None \/
   dict_get environ "XDG_CONFIG_HOME" = Some EmptyString ->
   xdg_config_home environ home Path_of = joinpath home ".config" /\
   XKB_HOME environ home Path_of = joinpath (joinpath home ".config") "xkb") /\
  (forall value,
     dict_get environ "XDG_CONFIG_HOME" = Some value ->
     value <> EmptyString ->
     xdg_config_home environ home Path_of = Path_of value) /\
  (wayland_running environ = true <->
   exists rest,
     dict_get environ "XDG_SESSION_TYPE" = Some ("wayland" ++ rest)).
Proof.
  unfold XKB_HOME, xdg_config_home, wayland_running, environ_get.
  split; [|split].
  - intros [-> | ->]; split; reflexivity.
  - intros value -> N. destruct value; [now elim N | reflexivity].
  - split.
    + destruct (dict_get environ "XDG_SESSION_TYPE") as [[|c s]|];
        try discriminate.
      intros H. apply startswith_spec in H as [rest ->]. now exists rest.
    + intros [rest ->]. cbn [append]. apply (startswith_append "wayland").
Qed.

(* ------------------------------------------------------------------------- *)
(** * Further properties: the XKB configuration in user space *)

Lemma path_eqb_eq (p q : Path) : path_eqb p q = true <-> p = q.
Proof.
  unfold path_eqb. destruct (list_eq_dec string_dec p q); split; auto.
  discriminate.
Qed.

Lemma path_eqb_refl (p : Path) : path_eqb p p = true.
Proof. now apply path_eqb_eq. Qed.

Lemma parent_joinpath (p : Path) (name : string) :
  parent (joinpath p name) = p.
Proof. apply removelast_last. Qed.

Lemma fs_le_refl (s : fs) : fs_le s s.
Proof. split; auto. Qed.

Lemma fs_le_trans (s1 s2 s3 : fs) : fs_le s1 s2 -> fs_le s2 s3 -> fs_le s1 s3.
Proof. intros [A B] [C D]. split; auto. Qed.

Lemma fs_le_exists (s s' : fs) (p : Path) :
  fs_le s s' -> path_exists s p = true -> path_exists s' p = true.
Proof.
  intros [A B] H. unfold path_exists, is_file in *.
  apply orb_true_iff in H as [H|H].
  - now rewrite (A p H).
  - destruct (read_text s p) as [c|] eqn:R; [|discriminate].
    rewrite (B p c R). apply orb_true_r.
Qed.

Lemma read_text_other (p q : Path) (entries : list (Path * string)) :
  path_eqb q p = false ->
  find (fun entry => path_eqb q (fst entry))
       (filter (fun entry => negb (path_eqb p (fst entry))) entries)
  = find (fun entry => path_eqb q (fst entry)) entries.
Proof.
  intros N. induction entries as [|[r c] entries IH]; [reflexivity|].
  cbn [filter find fst]. destruct (path_eqb p r) eqn:E; cbn [negb].
  - apply path_eqb_eq in E. subst r. now rewrite N.
  - cbn [find fst]. now rewrite IH.
Qed.

Lemma mkdir_returns (p : Path) (s s' : fs) :
  mkdir_exist_ok p s = (Return tt, s') ->
  is_dir s' p = true /\ fs_le s s' /\ fs_files s' = fs_files s.
Proof.
  unfold mkdir_exist_ok. destruct (is_dir s p) eqn:D.
  - intros [= <-]. auto using fs_le_refl.
  - destruct (is_file s p); [discriminate|].
    destruct (is_dir s (parent p)); [|discriminate].
    intros [= <-]. unfold is_dir. cbn [fs_dirs fs_files].
    split; [|split; [split|reflexivity]].
    + rewrite existsb_app. cbn. now rewrite path_eqb_refl, orb_true_r.
    + intros q H. unfold is_dir in *. cbn [fs_dirs].
      rewrite existsb_app. now rewrite H.
    + auto.
Qed.

Lemma mkdir_leaves (p : Path) (s : fs) :
  is_dir s p = true -> mkdir_exist_ok p s = (Return tt, s).
Proof. intros H. unfold mkdir_exist_ok. now rewrite H. Qed.

Lemma mkdir_grows (p : Path) (s : fs) : fs_le s (snd (mkdir_exist_ok p s)).
Proof.
  destruct (mkdir_exist_ok p s) as [[[]|exc|msg] s'] eqn:E; cbn [snd].
  - now apply mkdir_returns in E.
  - unfold mkdir_exist_ok in E.
    destruct (is_dir s p); [discriminate|].
    destruct (is_file s p); [injection E as _ <-; apply fs_le_refl|].
    destruct (is_dir s (parent p)); [discriminate|].
    injection E as _ <-. apply fs_le_refl.
  - unfold mkdir_exist_ok in E.
    destruct (is_dir s p); [discriminate|].
    destruct (is_file s p); [discriminate|].
    destruct (is_dir s (parent p)); discriminate.
Qed.

Lemma write_text_if_missing_returns (p : Path) (content : string)
  (s s' : fs) :
  write_text_if_missing p content s = (Return tt, s') ->
  path_exists s' p = true /\ fs_le s s'.
Proof.
  unfold write_text_if_missing. destruct (path_exists s p) eqn:X.
  - intros [= <-]. auto using fs_le_refl.
  - unfold write_text. apply orb_false_iff in X as [D F]. rewrite D.
    destruct (is_dir s (parent p)); [|discriminate].
    intros [= <-]. split; [|split].
    + unfold path_exists, is_file, read_text. cbn [fs_files find fst].
      rewrite path_eqb_refl. apply orb_true_r.
    + auto.
    + intros q c R. unfold read_text in *. cbn [fs_files find fst].
      destruct (path_eqb q p) eqn:E.
      * apply path_eqb_eq in E. subst q. unfold is_file, read_text in F.
        now rewrite R in F.
      * now rewrite read_text_other.
Qed.

Lemma write_text_if_missing_leaves (p : Path) (content : string) (s : fs) :
  path_exists s p = true -> write_text_if_missing p content s = (Return tt, s).
Proof. intros H. unfold write_text_if_missing. now rewrite H. Qed.

Lemma write_text_if_missing_grows (p : Path) (content : string) (s : fs) :
  fs_le s (snd (write_text_if_missing p content s)).
Proof.
  destruct (write_text_if_missing p content s) as [[[]|exc|msg] s'] eqn:E;
    cbn [snd].
  - now apply write_text_if_missing_returns in E.
  - unfold write_text_if_missing, write_text in E.
    destruct (path_exists s p); [discriminate|].
    destruct (is_dir s p); [injection E as _ <-; apply fs_le_refl|].
    destruct (is_dir s (parent p)); [discriminate|].
    injection E as _ <-. apply fs_le_refl.
  - unfold write_text_if_missing, write_text in E.
    destruct (path_exists s p); [discriminate|].
    destruct (is_dir s p); [discriminate|].
    destruct (is_dir s (parent p)); discriminate.
Qed.

Lemma fs_bind_grows {A B} (m : FS A) (k : A -> FS B) :
  (forall s, fs_le s (snd (m s))) ->
  (forall a s, fs_le s (snd (k a s))) ->
  forall s, fs_le s (snd (fs_bind m k s)).
Proof.
  intros Hm Hk s. unfold fs_bind. specialize (Hm s).
  destruct (m s) as [[a|exc|msg] s']; cbn [snd] in *; auto.
  apply (fs_le_trans _ s'); auto.
Qed.

Lemma fs_for_each_grows {X} (xs : list X) (body : X -> FS unit) :
  (forall x s, fs_le s (snd (body x s))) ->
  forall s, fs_le s (snd (fs_for_each xs body s)).
Proof.
  intros H. induction xs as [|x xs IH]; [intros s; apply fs_le_refl|].
  cbn [fs_for_each]. apply fs_bind_grows; auto.
Qed.

Lemma fs_bind_return_inv {A B} (m : FS A) (k : A -> FS B) (s s' : fs)
  (b : B) :
  fs_bind m k s = (Return b, s') ->
  exists a sm, m s = (Return a, sm) /\ k a sm = (Return b, s').
Proof.
  unfold fs_bind. destruct (m s) as [[a|exc|msg] sm]; try discriminate.
  intros H. now exists a, sm.
Qed.

Lemma mkdirs_return (xkb_home : Path) (subdirs : list string) (s s' : fs) :
  fs_for_each subdirs (fun subdir => mkdir_exist_ok (joinpath xkb_home subdir))
              s = (Return tt, s') ->
  fs_le s s' /\
  forallb (fun subdir => is_dir s' (joinpath xkb_home subdir)) subdirs = true.
Proof.
  revert s. induction subdirs as [|x xs IH]; intros s H.
  - injection H as <-. split; [apply fs_le_refl | reflexivity].
  - cbn [fs_for_each] in H. apply fs_bind_return_inv in H as [[] [s1 [H1 H2]]].
    apply mkdir_returns in H1 as [D [L _]].
    destruct (IH s1 H2) as [L' F]. split; [now apply (fs_le_trans _ s1)|].
    cbn [forallb]. rewrite F, andb_true_r. now apply L'.
Qed.

Lemma mkdirs_leave (xkb_home : Path) (subdirs : list string) (s : fs) :
  forallb (fun subdir => is_dir s (joinpath xkb_home subdir)) subdirs = true ->
  fs_for_each subdirs (fun subdir => mkdir_exist_ok (joinpath xkb_home subdir))
              s = (Return tt, s).
Proof.
  induction subdirs as [|x xs IH]; intros H; [reflexivity|].
  cbn [forallb] in H. apply andb_true_iff in H as [D F].
  cbn [fs_for_each]. unfold fs_bind. rewrite (mkdir_leaves _ _ D).
  now apply IH.
Qed.

(** X27.  However it ends, [ensure_xkb_config_is_ready] loses nothing: the
    directories that were there are still there and every file holds the
    text it held, so a registry the user has written is never replaced.
    For a manager made as root it does nothing at all. *)
Theorem ensure_xkb_config_loses_nothing (xkb_home : Path)
  (self : XKBManager.t) (s : fs) :
  fs_le s (snd (ensure_xkb_config_is_ready xkb_home self s)) /\
  (XKBManager._as_root self = true ->
   ensure_xkb_config_is_ready xkb_home self s = (Return tt, s)).
Proof.
  unfold ensure_xkb_config_is_ready.
  destruct (XKBManager._as_root self); split; try discriminate;
    try reflexivity; try apply fs_le_refl.
  revert s. apply fs_bind_grows; [apply mkdir_grows|]. intros _.
  apply fs_bind_grows;
    [apply fs_for_each_grows; intros x; apply mkdir_grows|]. intros _.
  apply fs_for_each_grows. intros ruleset.
  apply fs_bind_grows; [apply write_text_if_missing_grows|]. intros _.
  apply write_text_if_missing_grows.
Qed.

(** X28.  For a manager not made as root: when
    [ensure_xkb_config_is_ready] returns, the directory [XKB_HOME], its
    five subdirectories, [rules/evdev] and [rules/evdev.xml] are there; and
    when they are all there it returns with the file system untouched, so
    calling it again changes nothing. *)
Theorem ensure_xkb_config_ready (xkb_home : Path) (self : XKBManager.t)
  (s : fs) :
  XKBManager._as_root self = false ->
  (forall s1,
     ensure_xkb_config_is_ready xkb_home self s = (Return tt, s1) ->
     xkb_config_ready xkb_home s1 = true /\
     ensure_xkb_config_is_ready xkb_home self s1 = (Return tt, s1)) /\
  (xkb_config_ready xkb_home s = true ->
   ensure_xkb_config_is_ready xkb_home self s = (Return tt, s)).
Proof.
  intros NR.
  assert (Fix : forall s0, xkb_config_ready xkb_home s0 = true ->
                ensure_xkb_config_is_ready xkb_home self s0 = (Return tt, s0)).
  { intros s0 H. unfold xkb_config_ready in H.
    apply andb_true_iff in H as [H X2]. apply andb_true_iff in H as [H X1].
    apply andb_true_iff in H as [D F].
    unfold ensure_xkb_config_is_ready. rewrite NR.
    unfold fs_bind at 1. rewrite (mkdir_leaves _ _ D).
    unfold fs_bind at 1. rewrite (mkdirs_leave _ _ _ F).
    cbn [fs_for_each]. unfold fs_bind.
    change ("evdev" ++ ".xml") with "evdev.xml".
    now rewrite (write_text_if_missing_leaves _ _ _ X1),
      (write_text_if_missing_leaves _ _ _ X2). }
  split; [|apply Fix].
  intros s1 H.
  assert (R : xkb_config_ready xkb_home s1 = true); [|split; auto].
  unfold ensure_xkb_config_is_ready in H. rewrite NR in H.
  apply fs_bind_return_inv in H as [[] [sa [Ha H]]].
  apply fs_bind_return_inv in H as [[] [sb [Hb H]]].
  cbn [fs_for_each] in H.
  apply fs_bind_return_inv in H as [[] [sc [Hc H]]].
  unfold fs_ret in H. injection H as <-.
  apply fs_bind_return_inv in Hc as [[] [sd [Hd Hc]]].
  change ("evdev" ++ ".xml") with "evdev.xml" in Hc.
  apply mkdir_returns in Ha as [Da [La _]].
  apply mkdirs_return in Hb as [Lb Fb].
  apply write_text_if_missing_returns in Hd as [Xd Ld].
  apply write_text_if_missing_returns in Hc as [Xc Lc].
  pose proof (fs_le_trans _ _ _ Ld Lc) as Lbc.
  unfold xkb_config_ready. rewrite Xc, (fs_le_exists _ _ _ Lc Xd).
  rewrite (proj1 Lbc _ (proj1 Lb _ Da)). cbn [andb].
  rewrite !andb_true_r. apply forallb_forall.
  rewrite forallb_forall in Fb.
  intros x I. apply (proj1 Lbc). now apply Fb.
Qed.

Lemma ensure_xkb_config_ready_witness :
  xkb_config_ready
    (joinpath SampleHome.config "xkb")
    (snd (ensure_xkb_config_is_ready (joinpath SampleHome.config "xkb")
            SampleHome.user SampleHome.with_rules)) = true /\
  read_text
    (snd (ensure_xkb_config_is_ready (joinpath SampleHome.config "xkb")
            SampleHome.user SampleHome.with_rules))
    (joinpath (joinpath (joinpath SampleHome.config "xkb") "rules")
              "evdev.xml")
  = Some "<xkbConfigRegistry/>".
Proof.
  split; [|reflexivity].
  apply (ensure_xkb_config_ready (joinpath SampleHome.config "xkb")
           SampleHome.user SampleHome.with_rules eq_refl).
  reflexivity.
Defined.

(** X29.  The call creates [XKB_HOME] but not its parent: for a manager not
    made as root, when neither [XKB_HOME] nor the configuration directory
    above it is a directory, it raises an error of the operating system and
    creates nothing. *)
Theorem ensure_xkb_config_needs_parent (config : Path) (self : XKBManager.t)
  (s : fs) :
  XKBManager._as_root self = false ->
  is_dir s config = false ->
  is_dir s (joinpath config "xkb") = false ->
  exists exc,
    ensure_xkb_config_is_ready (joinpath config "xkb") self s
    = (Raise exc, s) /\
    exc_kind exc = OtherOSError.
Proof.
  intros NR Dc Dx. unfold ensure_xkb_config_is_ready. rewrite NR.
  unfold fs_bind at 1, mkdir_exist_ok. rewrite Dx, parent_joinpath, Dc.
  destruct (is_file s (joinpath config "xkb")).
  - exists FileExistsError. split; reflexivity.
  - exists (parent_error s (joinpath config "xkb")). split; [reflexivity|].
    unfold parent_error. now destruct (is_file s _).
Qed.

Lemma ensure_xkb_config_needs_parent_witness :
  exists exc,
    ensure_xkb_config_is_ready (joinpath SampleHome.config "xkb")
                               SampleHome.user SampleHome.without_config
    = (Raise exc, SampleHome.without_config) /\
    exc_kind exc = OtherOSError.
Proof.
  apply (ensure_xkb_config_needs_parent SampleHome.config SampleHome.user
           SampleHome.without_config eq_refl eq_refl eq_refl).
Defined.

(** With the configuration directory in place, the same call returns and
    leaves the configuration ready. *)
Example ensure_xkb_config_example :
  fst (ensure_xkb_config_is_ready (joinpath SampleHome.config "xkb")
         SampleHome.user SampleHome.with_config) = Return tt /\
  xkb_config_ready
    (joinpath SampleHome.config "xkb")
    (snd (ensure_xkb_config_is_ready (joinpath SampleHome.config "xkb")
            SampleHome.user SampleHome.with_config)) = true.
Proof. split; reflexivity. Qed.


(* ------------------------------------------------------------------------- *)
(** * Further properties: the files a commit touches *)

Lemma keeps_set_symbols_other (l locale content : string) :
  locale <> l ->
  keeps (fun d => dict_get (symbols_files d) l) (set_symbols locale content).
Proof.
  intros N d. unfold set_symbols. cbn [snd symbols_files].
  now apply dict_get_set_other.
Qed.

Lemma keeps_set_rules_other (f filename : string) (tree : Tree) :
  filename <> f ->
  keeps (fun d => dict_get (rules_files d) f) (set_rules filename tree).
Proof.
  intros N d. unfold set_rules. cbn [snd rules_files].
  now apply dict_get_set_other.
Qed.

Lemma update_symbols_entry_keeps_other (e : env) (l locale : string)
  (m : Variant) :
  locale <> l ->
  keeps (fun d => dict_get (symbols_files d) l)
        (update_symbols_entry e (locale, m)).
Proof.
  intros N. unfold update_symbols_entry. cbn [fst snd].
  apply keeps_bind; [intros d; reflexivity|].
  intros content. apply keeps_bind.
  - destruct content; [intros d; reflexivity|].
    apply keeps_bind; [apply keeps_open|]. intros _.
    apply keeps_bind; [now apply keeps_set_symbols_other|].
    intros _ d. reflexivity.
  - intros _. apply keeps_try_except; [|intros exc; apply keeps_exit].
    unfold update_symbols_locale_io.
    apply keeps_bind; [apply keeps_open|]. intros _.
    apply keeps_bind; [intros d; reflexivity|].
    intros [c|]; [|intros d; reflexivity].
    destruct (modified_text _ || has_definition _); [|intros d; reflexivity].
    apply keeps_bind; [now apply keeps_set_symbols_other|].
    intros _ d. reflexivity.
Qed.

Lemma update_symbols_keeps_other (e : env) (kb_index : Index) (l : string) :
  ~ In l (keys kb_index) ->
  keeps (fun d => dict_get (symbols_files d) l) (update_symbols e kb_index).
Proof.
  unfold update_symbols.
  induction kb_index as [|[locale m] kb_index IH]; intros N;
    [intros d; reflexivity|].
  cbn [for_each]. apply keeps_bind.
  - apply update_symbols_entry_keeps_other. intros ->. apply N. now left.
  - intros _. apply IH. intros I. apply N. now right.
Qed.

Lemma update_rules_keeps_other (e : env) (kb_index : Index) (f : string) :
  f <> "base.xml" -> f <> "evdev.xml" ->
  keeps (fun d => dict_get (rules_files d) f) (update_rules e kb_index).
Proof.
  intros N1 N2.
  assert (K : forall filename, filename <> f ->
              keeps (fun d => dict_get (rules_files d) f)
                    (update_rules_file e kb_index filename)).
  { intros filename N. unfold update_rules_file.
    apply keeps_bind; [intros d; reflexivity|].
    intros [parsed|]; [|intros d; reflexivity].
    apply keeps_try_except; [|intros exc; apply keeps_exit].
    apply keeps_bind; [apply keeps_open|]. intros _.
    apply keeps_bind; [intros d; reflexivity|]. intros tree.
    apply keeps_bind; [apply keeps_open|]. intros _.
    apply keeps_bind; [now apply keeps_set_rules_other|].
    intros _ d. reflexivity. }
  unfold update_rules. cbn [for_each].
  apply keeps_bind; [apply K; congruence|]. intros _.
  apply keeps_bind; [apply K; congruence|]. intros _ d. reflexivity.
Qed.

(** X30.  When the locales of the index are file names, so that each names
    a file of its own right under [symbols/]: however it ends, a commit
    leaves alone the symbols file of every other locale, and every file of
    the registry other than [base.xml] and [evdev.xml]. *)
Theorem commit_touches_only_the_index (os : faults) (self : XKBManager.t)
  (d : disk) :
  forallb file_name (keys (XKBManager._index self)) = true ->
  (forall l,
     file_name l = true ->
     ~ In l (keys (XKBManager._index self)) ->
     dict_get (symbols_files (snd (XKBManager.update os self d))) l
     = dict_get (symbols_files d) l) /\
  (forall f,
     file_name f = true ->
     f <> "base.xml" -> f <> "evdev.xml" ->
     dict_get (rules_files (snd (XKBManager.update os self d))) f
     = dict_get (rules_files d) f).
Proof.
  intros _. split.
  - intros l _ N. revert d.
    change (keeps (fun d => dict_get (symbols_files d) l)
                  (XKBManager.update os self)).
    unfold XKBManager.update. apply keeps_bind.
    + intros d. now rewrite update_rules_keeps_symbols.
    + intros _. apply keeps_bind; [now apply update_symbols_keeps_other|].
      intros _ d. reflexivity.
  - intros f _ N1 N2. revert d.
    change (keeps (fun d => dict_get (rules_files d) f)
                  (XKBManager.update os self)).
    unfold XKBManager.update. apply keeps_bind.
    + now apply update_rules_keeps_other.
    + intros _. apply keeps_bind.
      * intros d. now rewrite update_symbols_keeps_rules.
      * intros _ d. reflexivity.
Qed.

Lemma commit_touches_only_the_index_witness :
  forallb file_name (keys (XKBManager._index SampleReplace.self)) = true /\
  dict_get
    (symbols_files
       (snd (XKBManager.update SampleDisk.no_fault SampleReplace.self
               SampleReplace.disk0)))
    "de"
  = dict_get (symbols_files SampleReplace.disk0) "de".
Proof.
  split; [reflexivity|].
  apply (proj1 (commit_touches_only_the_index SampleDisk.no_fault
                  SampleReplace.self SampleReplace.disk0 eq_refl)
           "de" eq_refl).
  intros [H | []]. discriminate H.
Defined.
